(** * meeting-transcriber: windowing buffer, chunk splitter and minutes updater

    A shallow embedding of the core of [meeting_transcriber]:
    - [audio.py]: [AudioRecorder], the windowing buffer and its bounded queue;
    - [chunking.py]: [ChunkSplitter], topic-boundary splitting of a transcript;
    - [minutes.py]: [MinutesGenerator] and [MinutesUpdater], the session state
      machine that regenerates the minutes.

    Python [int] values are [Z]; a Python [str] is the list of its code points;
    a list is a [list]; [len] is [Z.of_nat (length _)].  Calls to the text
    generation backend, the clock and the file system are explicit: the backend
    and the disk are oracles, every prompt sent is logged. *)

From Stdlib Require Import String Ascii.
From Stdlib Require QArith_base.
From Stdlib Require Import List ZArith NArith Lia Bool.
From Stdlib Require Import Sorting.Sorted Sorting.Permutation.
Import ListNotations.
Local Open Scope Z_scope.

(* ================================================================== *)
(** ** Python values *)

Module Py.

(** [len(x)] of a list or string. *)
Definition len {A} (l : list A) : Z := Z.of_nat (length l).

(** Normalisation of a slice bound against a sequence of length [n]:
    a negative bound counts from the end, and bounds are clamped to
    [0..n]. *)
Definition norm_index (n i : Z) : Z :=
  if i <? 0 then Z.max 0 (i + n) else Z.min i n.

(** [l[i:]] *)
Definition slice_from {A} (l : list A) (i : Z) : list A :=
  skipn (Z.to_nat (norm_index (len l) i)) l.

(** [l[i:j]] *)
Definition slice {A} (l : list A) (i j : Z) : list A :=
  let a := norm_index (len l) i in
  let b := norm_index (len l) j in
  firstn (Z.to_nat (b - a)) (skipn (Z.to_nat a) l).

(** A [str] is its sequence of code points. *)
Definition char := N.
Definition str := list char.

(** An ASCII literal as a [str]. *)
Fixpoint lit (s : string) : str :=
  match s with
  | EmptyString => []
  | String c s' => N_of_ascii c :: lit s'
  end.

Definition char_eqb (a b : char) : bool := N.eqb a b.

Fixpoint str_eqb (a b : str) : bool :=
  match a, b with
  | [], [] => true
  | x :: a', y :: b' => char_eqb x y && str_eqb a' b'
  | _, _ => false
  end.

(** [sep.join(parts)] *)
Fixpoint join (sep : str) (parts : list str) : str :=
  match parts with
  | [] => []
  | [p] => p
  | p :: rest => p ++ sep ++ join sep rest
  end.

Definition newline : str := [10%N].

(** [str.isspace] on one code point: the characters [str.strip()]
    discards. *)
Definition isspace (c : char) : bool :=
  ((9 <=? c) && (c <=? 13) || (28 <=? c) && (c <=? 32)
   || (c =? 133) || (c =? 160) || (c =? 5760)
   || (8192 <=? c) && (c <=? 8202)
   || (c =? 8232) || (c =? 8233) || (c =? 8239) || (c =? 8287)
   || (c =? 12288))%N.

Fixpoint lstrip (s : str) : str :=
  match s with
  | c :: s' => if isspace c then lstrip s' else s
  | [] => []
  end.

Definition rstrip (s : str) : str := rev (lstrip (rev s)).

(** [s.strip()] *)
Definition strip (s : str) : str := rstrip (lstrip s).

(** [s.replace(c, '')] for a one-character [c]. *)
Definition remove_char (c : char) (s : str) : str :=
  filter (fun x => negb (char_eqb x c)) s.

(** [s.split(c)] for a one-character separator: always at least one part. *)
Fixpoint split_on (c : char) (s : str) : list str :=
  match s with
  | [] => [[]]
  | x :: s' =>
      if char_eqb x c then [] :: split_on c s'
      else match split_on c s' with
           | p :: ps => (x :: p) :: ps
           | [] => [[x]]
           end
  end.

(** [str(n)] for an integer. *)
Fixpoint uint_digits (d : Decimal.uint) : str :=
  match d with
  | Decimal.Nil => []
  | Decimal.D0 d' => 48%N :: uint_digits d'
  | Decimal.D1 d' => 49%N :: uint_digits d'
  | Decimal.D2 d' => 50%N :: uint_digits d'
  | Decimal.D3 d' => 51%N :: uint_digits d'
  | Decimal.D4 d' => 52%N :: uint_digits d'
  | Decimal.D5 d' => 53%N :: uint_digits d'
  | Decimal.D6 d' => 54%N :: uint_digits d'
  | Decimal.D7 d' => 55%N :: uint_digits d'
  | Decimal.D8 d' => 56%N :: uint_digits d'
  | Decimal.D9 d' => 57%N :: uint_digits d'
  end.

Definition str_of_int (z : Z) : str :=
  match Z.to_int z with
  | Decimal.Pos d => uint_digits d
  | Decimal.Neg d => 45%N :: uint_digits d
  end.

(** The white space [int()] discards around a number: that of
    [str.strip()] without the separators U+001C to U+001F, which [int()]
    rejects. *)
Definition int_space (c : char) : bool :=
  isspace c && negb ((28 <=? c) && (c <=? 31))%N.

Fixpoint int_lstrip (s : str) : str :=
  match s with
  | c :: s' => if int_space c then int_lstrip s' else s
  | [] => []
  end.

Definition int_strip (s : str) : str :=
  rev (int_lstrip (rev (int_lstrip s))).

(** [sys.int_max_str_digits] at its default: [int()] raises [ValueError]
    on a decimal number of more digits. *)
Definition INT_MAX_STR_DIGITS : Z := 4300.

Section Int.
(** Decimal value of a non-ASCII digit ([int()] accepts every Unicode
    decimal digit, for instance the full-width ones); the table belongs
    to the interpreter and is a parameter here. *)
Variable nonascii_digit : char -> option Z.

Definition digit_value (c : char) : option Z :=
  if ((48 <=? c) && (c <=? 57))%N then Some (Z.of_N c - 48)
  else if (c <? 128)%N then None
  else nonascii_digit c.

(** Digits with single underscores allowed between digits; [acc] is the
    value read so far, [after_digit] whether the previous character was a
    digit. *)
Fixpoint int_digits (s : str) (acc : Z) (after_digit : bool) : option Z :=
  match s with
  | [] => if after_digit then Some acc else None
  | c :: s' =>
      if char_eqb c 95%N then
        if after_digit then int_digits s' acc false else None
      else match digit_value c with
           | Some d => int_digits s' (10 * acc + d) true
           | None => None
           end
  end.

(** [int(s)] in base ten; [None] is [ValueError].  White space around the
    number is discarded, then a sign is read, then the digits, of which
    there may be at most [INT_MAX_STR_DIGITS]. *)
Definition int (s : str) : option Z :=
  match int_strip s with
  | [] => None
  | c :: s' =>
      let signed := char_eqb c 45%N || char_eqb c 43%N in
      let digits := if signed then s' else c :: s' in
      if INT_MAX_STR_DIGITS <? len (remove_char 95%N digits) then None
      else if char_eqb c 45%N
           then option_map Z.opp (int_digits digits 0 false)
           else int_digits digits 0 false
  end.
End Int.

(** [sorted(l)] on integers. *)
Fixpoint insert_sorted (x : Z) (l : list Z) : list Z :=
  match l with
  | [] => [x]
  | y :: l' => if x <=? y then x :: l else y :: insert_sorted x l'
  end.

Fixpoint sorted (l : list Z) : list Z :=
  match l with
  | [] => []
  | x :: l' => insert_sorted x (sorted l')
  end.

End Py.

(* ================================================================== *)
(** ** audio.py *)

Module Audio.

(** [queue.Queue(maxsize=10)] *)
Definition QUEUE_MAXSIZE : Z := 10.

Section Recorder.
(** One audio sample ([float32] in the program; its value is never
    inspected). *)
Variable sample : Type.

(** The recorder; an [np.ndarray] of samples is the list of them. *)
Record AudioRecorder := mkRecorder {
  sample_rate : Z;
  step_samples : Z;
  window_samples : Z;
  _audio_queue : list (list sample);       (* oldest first *)
  _buffer : list (list sample);
  _buffer_samples : Z;
  _keep_buffer : option (list sample);
  _is_recording : bool;
  _is_paused : bool;
  _on_chunk_callback : bool          (* a listener is registered *)
}.

(** [int(sample_rate * duration)]: durations are given as exact rationals
    and [int] truncates towards zero.  The source multiplies in binary
    floating point: the two agree when the product is a float, as for the
    default 16000 * 5.0 and 16000 * 15.0, and may differ by one sample
    when the duration is not a binary fraction. *)
Definition samples_of (rate : Z) (duration : QArith_base.Q) : Z :=
  Z.quot (rate * QArith_base.Qnum duration)
         (Z.pos (QArith_base.Qden duration)).

(** [AudioRecorder.__init__] *)
Definition init (rate : Z) (step_duration window_duration : QArith_base.Q)
  : AudioRecorder :=
  {| sample_rate := rate;
     step_samples := samples_of rate step_duration;
     window_samples := samples_of rate window_duration;
     _audio_queue := [];
     _buffer := [];
     _buffer_samples := 0;
     _keep_buffer := None;
     _is_recording := false;
     _is_paused := false;
     _on_chunk_callback := false |}.

(** *** The queue *)

(** [put_nowait]: [None] is [queue.Full]. *)
Definition put_nowait (q : list (list sample)) (x : list sample)
  : option (list (list sample)) :=
  if Py.len q <? QUEUE_MAXSIZE then Some (q ++ [x]) else None.

(** [get_nowait]: [None] is [queue.Empty]. *)
Definition get_nowait (q : list (list sample))
  : option (list sample * list (list sample)) :=
  match q with
  | [] => None
  | x :: q' => Some (x, q')
  end.

(** [put] (blocking): with no free slot the caller waits for a consumer;
    on its own the call does not return ([None]). *)
Definition put (q : list (list sample)) (x : list sample)
  : option (list (list sample)) :=
  if Py.len q <? QUEUE_MAXSIZE then Some (q ++ [x]) else None.

(** Outcome of one capture callback. *)
Inductive callback_result :=
| Returned (self : AudioRecorder) (emitted : option (list sample))
| RaisedFull (self : AudioRecorder).

Definition with_buffer (self : AudioRecorder) (b : list (list sample)) (n : Z)
  : AudioRecorder :=
  {| sample_rate := sample_rate self;
     step_samples := step_samples self;
     window_samples := window_samples self;
     _audio_queue := _audio_queue self;
     _buffer := b;
     _buffer_samples := n;
     _keep_buffer := _keep_buffer self;
     _is_recording := _is_recording self;
     _is_paused := _is_paused self;
     _on_chunk_callback := _on_chunk_callback self |}.

Definition with_keep (self : AudioRecorder) (k : option (list sample))
  : AudioRecorder :=
  {| sample_rate := sample_rate self;
     step_samples := step_samples self;
     window_samples := window_samples self;
     _audio_queue := _audio_queue self;
     _buffer := _buffer self;
     _buffer_samples := _buffer_samples self;
     _keep_buffer := k;
     _is_recording := _is_recording self;
     _is_paused := _is_paused self;
     _on_chunk_callback := _on_chunk_callback self |}.

Definition with_queue (self : AudioRecorder) (q : list (list sample))
  : AudioRecorder :=
  {| sample_rate := sample_rate self;
     step_samples := step_samples self;
     window_samples := window_samples self;
     _audio_queue := q;
     _buffer := _buffer self;
     _buffer_samples := _buffer_samples self;
     _keep_buffer := _keep_buffer self;
     _is_recording := _is_recording self;
     _is_paused := _is_paused self;
     _on_chunk_callback := _on_chunk_callback self |}.

Definition with_flags (self : AudioRecorder) (recording paused : bool)
  : AudioRecorder :=
  {| sample_rate := sample_rate self;
     step_samples := step_samples self;
     window_samples := window_samples self;
     _audio_queue := _audio_queue self;
     _buffer := _buffer self;
     _buffer_samples := _buffer_samples self;
     _keep_buffer := _keep_buffer self;
     _is_recording := recording;
     _is_paused := paused;
     _on_chunk_callback := _on_chunk_callback self |}.

(** The window built when the step threshold is reached: the retained
    tail followed by the new audio, cut to its last [window_samples]. *)
Definition build_chunk (self : AudioRecorder) (new_audio : list sample)
  : list sample :=
  let chunk := match _keep_buffer self with
               | Some keep => keep ++ new_audio
               | None => new_audio
               end in
  if Py.len chunk >? window_samples self
  then Py.slice_from chunk (- window_samples self)
  else chunk.

(** The tail kept for the next window. *)
Definition next_keep (self : AudioRecorder) (chunk : list sample)
  : list sample :=
  let keep_samples := window_samples self - step_samples self in
  if Py.len chunk >? keep_samples
  then Py.slice_from chunk (- keep_samples)
  else chunk.

(** The callback's [try: put_nowait ... except queue.Full: ...]: the queue
    afterwards, and whether the second [put_nowait] raised [queue.Full],
    which no handler catches. *)
Definition enqueue_drop_oldest (q : list (list sample)) (chunk : list sample)
  : list (list sample) * bool :=
  match put_nowait q chunk with
  | Some q' => (q', false)
  | None =>
      match get_nowait q with
      | Some (_, q1) =>
          match put_nowait q1 chunk with
          | Some q2 => (q2, false)
          | None => (q1, true)
          end
      | None => (q, false)
      end
  end.

(** [AudioRecorder._audio_callback]; [indata] is one mono block.  The
    window emitted is also what a registered listener is handed. *)
Definition _audio_callback (self : AudioRecorder) (indata : list sample)
  : callback_result :=
  if _is_paused self then Returned self None
  else
    let self1 := with_buffer self (_buffer self ++ [indata])
                   (_buffer_samples self + Py.len indata) in
    if _buffer_samples self1 >=? step_samples self1 then
      let new_audio := concat (_buffer self1) in
      let chunk := build_chunk self1 new_audio in
      let self2 := with_keep self1 (Some (next_keep self1 chunk)) in
      let self3 := with_buffer self2 [] 0 in
      let (q, raised) := enqueue_drop_oldest (_audio_queue self3) chunk in
      if raised then RaisedFull (with_queue self3 q)
      else Returned (with_queue self3 q) (Some chunk)
    else Returned self1 None.

(** [AudioRecorder.start] *)
Definition start (self : AudioRecorder) (on_chunk : bool) : AudioRecorder :=
  let self1 := with_flags self true false in
  {| sample_rate := sample_rate self1;
     step_samples := step_samples self1;
     window_samples := window_samples self1;
     _audio_queue := _audio_queue self1;
     _buffer := _buffer self1;
     _buffer_samples := _buffer_samples self1;
     _keep_buffer := _keep_buffer self1;
     _is_recording := _is_recording self1;
     _is_paused := _is_paused self1;
     _on_chunk_callback := on_chunk |}.

(** [AudioRecorder.stop]: the state and the window flushed, if any;
    [None] when the blocking [put] finds the queue full. *)
Definition stop (self : AudioRecorder)
  : option (AudioRecorder * option (list sample)) :=
  let self1 := with_flags self false (_is_paused self) in
  match _buffer self1 with
  | [] => Some (self1, None)
  | _ :: _ =>
      let chunk := concat (_buffer self1) in
      match put (_audio_queue self1) chunk with
      | Some q => Some (with_buffer (with_queue self1 q) [] 0, Some chunk)
      | None => None
      end
  end.

Definition pause (self : AudioRecorder) : AudioRecorder :=
  with_flags self (_is_recording self) true.

Definition resume (self : AudioRecorder) : AudioRecorder :=
  with_flags self (_is_recording self) false.

(** [AudioRecorder.get_audio_chunk]: the oldest queued window, or [None]
    after the timeout. *)
Definition get_audio_chunk (self : AudioRecorder)
  : option (list sample) * AudioRecorder :=
  match get_nowait (_audio_queue self) with
  | Some (x, q) => (Some x, with_queue self q)
  | None => (None, self)
  end.

(** *** Runs of the capture callback *)

(** One emitted window with the stream position of its end: the number
    of samples accepted so far. *)
Record emission := mkEmission { e_end : Z; e_window : list sample }.

Definition e_start (e : emission) : Z := e_end e - Py.len (e_window e).

(** Number of stream positions two windows share. *)
Definition overlap (a b : emission) : Z :=
  Z.max 0 (Z.min (e_end a) (e_end b) - Z.max (e_start a) (e_start b)).

(** Feed the blocks in order, starting at stream position [pos];
    [None] if a callback raises. *)
Fixpoint feed (self : AudioRecorder) (pos : Z) (blocks : list (list sample))
  : option (AudioRecorder * Z * list emission) :=
  match blocks with
  | [] => Some (self, pos, [])
  | b :: rest =>
      match _audio_callback self b with
      | RaisedFull _ => None
      | Returned self' out =>
          let pos' := if _is_paused self then pos else pos + Py.len b in
          match feed self' pos' rest with
          | None => None
          | Some (self'', p, es) =>
              Some (self'', p,
                    match out with
                    | Some w => mkEmission pos' w :: es
                    | None => es
                    end)
          end
      end
  end.

(** Pairs of neighbours of a list. *)
Fixpoint adjacent {A} (l : list A) : list (A * A) :=
  match l with
  | a :: (b :: _) as tl => (a, b) :: adjacent tl
  | _ => []
  end.

(** *** Notions used to state the windowing properties *)

(** The retained tail, empty before the first window. *)
Definition kept (self : AudioRecorder) : list sample :=
  match _keep_buffer self with Some k => k | None => [] end.

(** Length of the tail kept from a window [w]. *)
Definition keep_len (self : AudioRecorder) (w : list sample) : Z :=
  let keep_samples := window_samples self - step_samples self in
  if keep_samples =? 0 then Py.len w else Z.min keep_samples (Py.len w).

(** The state between two callbacks.  [S] is the stream accepted so far
    and [last] the last window emitted.  The samples not yet emitted are
    the end of [S]; the last window ends where they begin, and the
    retained tail is the end of that window. *)
Definition inv (self : AudioRecorder) (S : list sample)
  (last : option emission) : Prop :=
  _buffer_samples self = Py.len (concat (_buffer self))
  /\ (_buffer self <> [] -> _buffer_samples self < step_samples self)
  /\ Py.len (_audio_queue self) <= QUEUE_MAXSIZE
  /\ exists E, S = E ++ concat (_buffer self)
       /\ match last with
          | None => _keep_buffer self = None /\ E = []
          | Some e =>
              e_end e = Py.len E
              /\ (exists pre, E = pre ++ e_window e)
              /\ Py.len (e_window e) <= window_samples self
              /\ exists k, _keep_buffer self = Some k
                   /\ (exists x, e_window e = x ++ k)
                   /\ Py.len k = keep_len self (e_window e)
          end.

(** What holds between a window [a] and the next one [b]: [b] ends
    [fresh] new samples after [a]. *)
Definition follows (step window : Z) (a b : emission) : Prop :=
  let fresh := e_end b - e_end a in
  step <= fresh
  /\ overlap a b = Z.max 0 (Z.min (Py.len (e_window a)) (window - fresh))
  /\ (fresh = step ->
      overlap a b = Z.min (window - step) (Py.len (e_window a))).

Definition same_settings (self self' : AudioRecorder) : Prop :=
  step_samples self' = step_samples self
  /\ window_samples self' = window_samples self
  /\ _is_paused self' = _is_paused self.

Fixpoint last_of (prev : option emission) (es : list emission)
  : option emission :=
  match es with
  | [] => prev
  | e :: es' => last_of (Some e) es'
  end.

Definition before (prev : option emission) (es : list emission)
  : list emission :=
  match prev with
  | Some a => a :: es
  | None => es
  end.

(** The window [e] lies at positions [e_start e .. e_end e] of [S]. *)
Definition placed (S : list sample) (e : emission) : Prop :=
  exists pre post, S = pre ++ e_window e ++ post
                   /\ Py.len pre = e_start e.

(** A recorder that has not buffered anything yet. *)
Definition fresh (self : AudioRecorder) : Prop :=
  _buffer self = [] /\ _buffer_samples self = 0
  /\ _keep_buffer self = None /\ _audio_queue self = []
  /\ _is_paused self = false.

(** The overlap the windows of a run would have if each overlapped its
    predecessor by [min (window_samples - step_samples) history]. *)
Definition overlap_by_keep (self : AudioRecorder) (es : list emission)
  : Prop :=
  Forall (fun p => overlap (fst p) (snd p)
                   = Z.min (window_samples self - step_samples self)
                           (Py.len (e_window (fst p))))
         (adjacent es).

(** A recorder between two windows: nothing buffered, capture running. *)
Definition idle (self : AudioRecorder) : Prop :=
  _buffer self = [] /\ _buffer_samples self = 0
  /\ _is_paused self = false
  /\ Py.len (_audio_queue self) <= QUEUE_MAXSIZE.

End Recorder.

Arguments Returned {sample}.
Arguments RaisedFull {sample}.
Arguments mkEmission {sample}.
Arguments e_end {sample}.
Arguments e_window {sample}.
Arguments e_start {sample}.
Arguments overlap {sample}.
Arguments follows {sample}.
Arguments placed {sample}.
Arguments last_of {sample}.
Arguments before {sample}.
Arguments kept {sample}.
Arguments keep_len {sample}.
Arguments inv {sample}.
Arguments same_settings {sample}.
Arguments fresh {sample}.
Arguments idle {sample}.
Arguments overlap_by_keep {sample}.

End Audio.

(* ================================================================== *)
(** ** config.py *)

Module Config.

(** A [datetime]: the day (as an ordinal) and the time of day. *)
Record datetime := mkDatetime {
  dt_day : Z; dt_hour : Z; dt_minute : Z; dt_second : Z
}.

(** [%02d] for a value in [0..99]. *)
Definition two_digits (v : Z) : Py.str :=
  [Z.to_N (48 + v / 10); Z.to_N (48 + v mod 10)].

(** [t.strftime("%H:%M:%S")] *)
Definition strftime_HMS (t : datetime) : Py.str :=
  two_digits (dt_hour t) ++ [58%N] ++ two_digits (dt_minute t)
    ++ [58%N] ++ two_digits (dt_second t).

Record TranscriptEntry := mkEntry {
  timestamp : datetime;
  text : Py.str;
  index : Z
}.

(** [TranscriptEntry.__str__]: [[HH:MM:SS] text] *)
Definition entry_str (e : TranscriptEntry) : Py.str :=
  [91%N] ++ strftime_HMS (timestamp e) ++ [93%N; 32%N] ++ text e.

Record UpdateResult := mkResult {
  success : bool;
  minutes : Py.str;
  new_entries_count : Z;
  total_entries_count : Z;
  update_number : Z;
  error : option Py.str
}.

Record Template := mkTemplate {
  template_name : Py.str;
  content : Py.str;
  prompt_hint : Py.str
}.

End Config.

(* ================================================================== *)
(** ** backends/base.py *)

Module Backends.

(** A prompt is one of the module-level prompt texts with its fields
    filled in by [str.format]; the fixed text is kept symbolic. *)
Inductive Prompt :=
| BOUNDARY_DETECTION_PROMPT (transcript : Py.str)
| EXTRACT_POINTS_PROMPT (transcript : Py.str)
| MERGE_POINTS_PROMPT (template points : Py.str)
| FULL_GENERATION_PROMPT (template transcript : Py.str)
| INCREMENTAL_UPDATE_PROMPT (current_minutes new_transcripts : Py.str).

(** What [Backend.generate] does: return a text or raise. *)
Inductive reply :=
| Text (s : Py.str)
| Raises (message : Py.str).

(** The backend is an oracle: its answer to the [n]-th call of the
    session, given the prompt. *)
Definition Backend := nat -> Prompt -> reply.

(** [backend.generate(prompt)], with the log of the prompts sent so far. *)
Definition generate (backend : Backend) (log : list Prompt) (p : Prompt)
  : reply * list Prompt :=
  (backend (length log) p, log ++ [p]).

End Backends.

(* ================================================================== *)
(** ** chunking.py *)

Module Chunking.
Import Config Backends.

Definition CHUNK_THRESHOLD : Z := 20000.
Definition BOUNDARY_DETECTION_MAX : Z := 30000.

Record Chunk := mkChunk {
  entries : list TranscriptEntry;
  start_index : Z;
  end_index : Z
}.

(** [Chunk.to_text] *)
Definition to_text (c : Chunk) : Py.str :=
  Py.join Py.newline (map entry_str (entries c)).

(** The reply that means no boundary. *)
Definition nashi : Py.str := [12394%N; 12375%N].

(** [min_idx < idx < max_idx] *)
Definition in_range (min_idx max_idx idx : Z) : bool :=
  (min_idx <? idx) && (idx <? max_idx).

(** Text length of a window as [take_window] counts it. *)
Fixpoint counted (es : list TranscriptEntry) : Z :=
  match es with
  | [] => 0
  | e :: es' => Py.len (entry_str e) + 1 + counted es'
  end.

(** Every entry renders to fewer than [CHUNK_THRESHOLD - 1] characters. *)
Definition short_entries (transcripts : list TranscriptEntry) : Prop :=
  Forall (fun e => Py.len (entry_str e) + 1 < CHUNK_THRESHOLD) transcripts.

Section Splitter.
Variable nonascii_digit : Py.char -> option Z.
Variable backend : Backend.

(** The body of the [for part in ...] loop of [_parse_boundaries]. *)
Fixpoint parse_parts (parts : list Py.str) (min_idx max_idx : Z)
  : list Z :=
  match parts with
  | [] => []
  | part :: rest =>
      match Py.int nonascii_digit part with
      | Some idx =>
          if (min_idx <? idx) && (idx <? max_idx)
          then idx :: parse_parts rest min_idx max_idx
          else parse_parts rest min_idx max_idx
      | None => parse_parts rest min_idx max_idx
      end
  end.

(** The integers read from the parts, in order; a part [int] rejects
    gives none. *)
Definition parsed (parts : list Py.str) : list Z :=
  flat_map (fun part => match Py.int nonascii_digit part with
                        | Some idx => [idx]
                        | None => []
                        end) parts.

(** [ChunkSplitter._parse_boundaries] *)
Definition _parse_boundaries (result : Py.str) (min_idx max_idx : Z)
  : list Z :=
  let result := Py.strip result in
  if Py.str_eqb result nashi
     || match result with [] => true | _ => false end
  then []
  else Py.sorted
         (parse_parts (Py.split_on 44%N (Py.remove_char 32%N result))
            min_idx max_idx).

(** The [for i in range(window_start, len(transcripts))] loop over the
    entries from [window_start] on: the window and its text length. *)
Fixpoint take_window (rest : list TranscriptEntry) (window_text_len : Z)
  : list TranscriptEntry * Z :=
  match rest with
  | [] => ([], window_text_len)
  | e :: rest' =>
      let entry_text := entry_str e in
      if window_text_len + Py.len entry_text >? BOUNDARY_DETECTION_MAX
      then ([], window_text_len)
      else
        let (w, n) :=
          take_window rest' (window_text_len + Py.len entry_text + 1) in
        (e :: w, n)
  end.

(** The lines [f'{window_start + i}: {e}'] of the window text. *)
Fixpoint numbered (i : Z) (es : list TranscriptEntry) : list Py.str :=
  match es with
  | [] => []
  | e :: es' =>
      (Py.str_of_int i ++ Py.lit ": " ++ entry_str e)
        :: numbered (i + 1) es'
  end.

Definition window_text (window_start : Z)
  (window_entries : list TranscriptEntry) : Py.str :=
  Py.join Py.newline (numbered window_start window_entries).

(** One turn of the [while] loop of [_detect_boundaries]. *)
Inductive scan :=
| Break
| Boundary (idx : Z).

Definition mid_point (window_start : Z)
  (window_entries : list TranscriptEntry) : Z :=
  window_start + Py.len window_entries / 2.

Definition scan_window (transcripts : list TranscriptEntry)
  (window_start : Z) (log : list Prompt) : scan * list Prompt :=
  let (window_entries, window_text_len) :=
    take_window (Py.slice_from transcripts window_start) 0 in
  match window_entries with
  | [] => (Break, log)
  | _ :: _ =>
      if window_text_len <? CHUNK_THRESHOLD then (Break, log)
      else
        let prompt :=
          BOUNDARY_DETECTION_PROMPT
            (window_text window_start window_entries) in
        let (r, log') := generate backend log prompt in
        match r with
        | Text result =>
            match _parse_boundaries result window_start
                    (window_start + Py.len window_entries) with
            | first_boundary :: _ => (Boundary first_boundary, log')
            | [] => (Boundary (mid_point window_start window_entries),
                     log')
            end
        | Raises _ =>
            (Boundary (mid_point window_start window_entries), log')
        end
  end.

(** The [while window_start < len(transcripts)] loop; [None] when the
    fuel runs out. *)
Fixpoint detect_loop (fuel : nat) (transcripts : list TranscriptEntry)
  (window_start : Z) (boundaries : list Z) (log : list Prompt)
  : option (list Z * list Prompt) :=
  match fuel with
  | O => None
  | S fuel' =>
      if window_start <? Py.len transcripts then
        match scan_window transcripts window_start log with
        | (Break, log') => Some (boundaries, log')
        | (Boundary b, log') =>
            detect_loop fuel' transcripts b (boundaries ++ [b]) log'
        end
      else Some (boundaries, log)
  end.

(** [ChunkSplitter._detect_boundaries] *)
Definition _detect_boundaries (fuel : nat)
  (transcripts : list TranscriptEntry) (log : list Prompt)
  : option (list Z * list Prompt) :=
  detect_loop fuel transcripts 0 [] log.

(** The [for boundary_idx in boundaries] loop of [split]. *)
Fixpoint split_loop (transcripts : list TranscriptEntry)
  (boundaries : list Z) (start_idx : Z) (chunks : list Chunk)
  : list Chunk * Z :=
  match boundaries with
  | [] => (chunks, start_idx)
  | boundary_idx :: rest =>
      if boundary_idx >? start_idx then
        split_loop transcripts rest boundary_idx
          (chunks ++ [mkChunk (Py.slice transcripts start_idx boundary_idx)
                        start_idx (boundary_idx - 1)])
      else split_loop transcripts rest start_idx chunks
  end.

Definition whole (transcripts : list TranscriptEntry) : Chunk :=
  mkChunk transcripts 0 (Py.len transcripts - 1).

(** [ChunkSplitter.split] *)
Definition split (fuel : nat) (transcripts : list TranscriptEntry)
  (log : list Prompt) : option (list Chunk * list Prompt) :=
  match transcripts with
  | [] => Some ([], log)
  | _ :: _ =>
      let total_text := Py.join Py.newline (map entry_str transcripts) in
      if Py.len total_text <=? CHUNK_THRESHOLD
      then Some ([whole transcripts], log)
      else
        match _detect_boundaries fuel transcripts log with
        | None => None
        | Some (boundaries, log') =>
            let (chunks, start_idx) :=
              split_loop transcripts boundaries 0 [] in
            let chunks :=
              if start_idx <? Py.len transcripts
              then chunks ++ [mkChunk (Py.slice_from transcripts start_idx)
                                start_idx (Py.len transcripts - 1)]
              else chunks in
            Some (match chunks with
                  | [] => [whole transcripts]
                  | _ :: _ => chunks
                  end, log')
        end
  end.

End Splitter.

End Chunking.

(* ================================================================== *)
(** ** minutes.py *)

Module Minutes.
Import Config Backends.

Definition MAX_TRANSCRIPT_CHARS : Z := 150000.

(** The message of the failure on an empty snapshot. *)
Definition no_transcript : Py.str :=
  [25991; 23383; 36215; 12371; 12375; 12364; 12354; 12426; 12414; 12379;
   12435]%N.

(** What [TemplateManager.get_default_context] is built from; the
    formatted entries are derived from these by the renderer. *)
Record Context := mkContext {
  ctx_start_time : datetime;
  ctx_end_time : datetime;
  ctx_update_count : Z
}.

Definition get_default_context (start_time end_time : datetime)
  (update_count : Z) : Context :=
  mkContext start_time end_time update_count.

Record MinutesUpdater := mkUpdater {
  template : Template;
  start_time : datetime;
  version_history : bool;
  simple_mode : bool;
  last_update_index : Z;
  update_count : Z;
  current_minutes : Py.str
}.

(** [MinutesUpdater.__init__] *)
Definition init (t : Template) (start : datetime)
  (history simple : bool) : MinutesUpdater :=
  mkUpdater t start history simple 0 0 [].

(** What lies outside the object: the prompts sent to the backend, the
    version files written ([minutes_vNNN.md], newest first) and the number
    of writes attempted. *)
Record World := mkWorld {
  calls : list Prompt;
  history_files : list (Z * Py.str);
  write_attempts : nat
}.

(** The environment: the backend, and the disk, which answers the [n]-th
    write with nothing or with the message of the error raised. *)
Record Env := mkEnv {
  backend : Backend;
  write_error : nat -> option Py.str
}.

(** Statements run on the object and the world; an exception leaves both
    as they are at the point where it is raised. *)
Definition state : Type := MinutesUpdater * World.

Inductive outcome (A : Type) :=
| Ok (a : A)
| Raise (message : Py.str).
Arguments Ok {A}.
Arguments Raise {A}.

Definition M (A : Type) : Type := state -> outcome A * state.

Definition ret {A} (a : A) : M A := fun s => (Ok a, s).

Definition bind {A B} (m : M A) (k : A -> M B) : M B :=
  fun s => match m s with
           | (Ok a, s') => k a s'
           | (Raise e, s') => (Raise e, s')
           end.

(** [try: body except Exception as e: handler(str(e))] *)
Definition try_except {A} (body : M A) (handler : Py.str -> M A) : M A :=
  fun s => match body s with
           | (Ok a, s') => (Ok a, s')
           | (Raise e, s') => handler e s'
           end.

Notation "x <- m ;; k" := (bind m (fun x => k))
  (at level 61, m at next level, right associativity).
Notation "m ;;; k" := (bind m (fun _ => k))
  (at level 61, right associativity).

Definition get_self : M MinutesUpdater := fun s => (Ok (fst s), s).

Definition set_update_count (n : Z) : M unit :=
  fun s => let self := fst s in
    (Ok tt, (mkUpdater (template self) (start_time self)
               (version_history self) (simple_mode self)
               (last_update_index self) n (current_minutes self), snd s)).

Definition set_current_minutes (m : Py.str) : M unit :=
  fun s => let self := fst s in
    (Ok tt, (mkUpdater (template self) (start_time self)
               (version_history self) (simple_mode self)
               (last_update_index self) (update_count self) m, snd s)).

Definition set_last_update_index (n : Z) : M unit :=
  fun s => let self := fst s in
    (Ok tt, (mkUpdater (template self) (start_time self)
               (version_history self) (simple_mode self)
               n (update_count self) (current_minutes self), snd s)).

(** The object with its counter set to [n]. *)
Definition counting (self : MinutesUpdater) (n : Z) : MinutesUpdater :=
  mkUpdater (template self) (start_time self) (version_history self)
    (simple_mode self) (last_update_index self) n (current_minutes self).

(** The object after a document is set and the index advanced. *)
Definition committed (self : MinutesUpdater) (doc : Py.str) (n count : Z)
  : MinutesUpdater :=
  mkUpdater (template self) (start_time self) (version_history self)
    (simple_mode self) n count doc.

(** The world after one more prompt. *)
Definition asked (w : World) (p : Prompt) : World :=
  mkWorld (calls w ++ [p]) (history_files w) (write_attempts w).

Section Updater.
(** [TemplateManager.render] on the template, the context and the
    transcript text added to it. *)
Variable render : Template -> Context -> Py.str -> Py.str.
Variable env : Env.

(** [self.backend.generate(prompt)] *)
Definition backend_generate (p : Prompt) : M Py.str :=
  fun s =>
    let w := snd s in
    let (r, log) := generate (backend env) (calls w) p in
    let s' := (fst s, mkWorld log (history_files w) (write_attempts w)) in
    match r with
    | Text t => (Ok t, s')
    | Raises e => (Raise e, s')
    end.

(** The [for entry in reversed(transcripts)] loop of [generate_full] on
    the reversed list: the entries kept, newest first. *)
Fixpoint truncate_loop (reversed : list TranscriptEntry) (total_len : Z)
  : list Py.str :=
  match reversed with
  | [] => []
  | entry :: rest =>
      let entry_str := entry_str entry in
      if total_len + Py.len entry_str + 1 >? MAX_TRANSCRIPT_CHARS then []
      else entry_str
             :: truncate_loop rest (total_len + Py.len entry_str + 1)
  end.

(** The transcript text [generate_full] sends. *)
Definition full_transcript_text (transcripts : list TranscriptEntry)
  : Py.str :=
  let transcript_text := Py.join Py.newline (map entry_str transcripts) in
  if Py.len transcript_text >? MAX_TRANSCRIPT_CHARS
  then Py.join Py.newline (rev (truncate_loop (rev transcripts) 0))
  else transcript_text.

(** [MinutesGenerator.generate_full] *)
Definition generate_full (transcripts : list TranscriptEntry)
  (t : Template) (context : Context) : M Py.str :=
  let transcript_text := full_transcript_text transcripts in
  let rendered_template := render t context transcript_text in
  backend_generate (FULL_GENERATION_PROMPT rendered_template
                      transcript_text).

(** [MinutesGenerator.generate_incremental] *)
Definition generate_incremental (current : Py.str)
  (new_transcripts : list TranscriptEntry) : M Py.str :=
  let new_transcript_text :=
    Py.join Py.newline (map entry_str new_transcripts) in
  backend_generate (INCREMENTAL_UPDATE_PROMPT current new_transcript_text).

(** [MinutesUpdater.get_new_transcripts] *)
Definition get_new_transcripts (self : MinutesUpdater)
  (transcripts : list TranscriptEntry) : list TranscriptEntry :=
  Py.slice_from transcripts (last_update_index self).

(** [MinutesUpdater._save_version]: one [write_text]. *)
Definition _save_version : M unit :=
  fun s =>
    let self := fst s in
    let w := snd s in
    match write_error env (write_attempts w) with
    | Some e =>
        (Raise e, (self, mkWorld (calls w) (history_files w)
                           (S (write_attempts w))))
    | None =>
        (Ok tt, (self, mkWorld (calls w)
                         ((update_count self, current_minutes self)
                            :: history_files w)
                         (S (write_attempts w))))
    end.

(** The end of the [try] block of [update], after the document is set. *)
Definition commit (transcripts : list TranscriptEntry)
  (new_entries_count : Z) : M UpdateResult :=
  set_last_update_index (Py.len transcripts) ;;;
  self <- get_self ;;
  (if version_history self && negb (simple_mode self)
   then _save_version else ret tt) ;;;
  self <- get_self ;;
  ret (mkResult true (current_minutes self) new_entries_count
         (Py.len transcripts) (update_count self) None).

(** [MinutesUpdater.update]; [now] is the clock read by the call. *)
Definition update (transcripts : list TranscriptEntry) (full : bool)
  (now : datetime) : M UpdateResult :=
  match transcripts with
  | [] =>
      self <- get_self ;;
      ret (mkResult false [] 0 0 (update_count self) (Some no_transcript))
  | _ :: _ =>
      try_except
        (self <- get_self ;;
         set_update_count (update_count self + 1) ;;;
         self <- get_self ;;
         let context :=
           get_default_context (start_time self) now (update_count self) in
         if full || (update_count self =? 1) then
           doc <- generate_full transcripts (template self) context ;;
           set_current_minutes doc ;;;
           commit transcripts (Py.len transcripts)
         else
           let new_transcripts := get_new_transcripts self transcripts in
           match new_transcripts with
           | [] =>
               set_update_count (update_count self - 1) ;;;
               self <- get_self ;;
               ret (mkResult true (current_minutes self) 0
                      (Py.len transcripts) (update_count self) None)
           | _ :: _ =>
               doc <- generate_incremental (current_minutes self)
                        new_transcripts ;;
               set_current_minutes doc ;;;
               commit transcripts (Py.len new_transcripts)
           end)
        (fun e =>
           self <- get_self ;;
           set_update_count (update_count self - 1) ;;;
           self <- get_self ;;
           ret (mkResult false (current_minutes self) 0
                  (Py.len transcripts) (update_count self) (Some e)))
  end.

(** The prompt of a full generation by [update]; the context carries the
    incremented counter. *)
Definition full_prompt (self : MinutesUpdater)
  (transcripts : list TranscriptEntry) (now : datetime) : Prompt :=
  FULL_GENERATION_PROMPT
    (render (template self)
       (get_default_context (start_time self) now (update_count self + 1))
       (full_transcript_text transcripts))
    (full_transcript_text transcripts).

(** The prompt of an incremental update by [update]. *)
Definition incremental_prompt (self : MinutesUpdater)
  (transcripts : list TranscriptEntry) : Prompt :=
  INCREMENTAL_UPDATE_PROMPT (current_minutes self)
    (Py.join Py.newline
       (map entry_str (get_new_transcripts self transcripts))).

(** The prompt an update sends, if it sends one, and the number of entries
    it then reports as new. *)
Definition planned (self : MinutesUpdater)
  (transcripts : list TranscriptEntry) (full : bool) (now : datetime)
  : option (Prompt * Z) :=
  if full || (update_count self + 1 =? 1)
  then Some (full_prompt self transcripts now, Py.len transcripts)
  else match get_new_transcripts self transcripts with
       | [] => None
       | _ :: _ => Some (incremental_prompt self transcripts,
                         Py.len (get_new_transcripts self transcripts))
       end.

End Updater.

End Minutes.

(* ================================================================== *)
(** ** Concrete recorders, transcripts and sessions *)

Module Scenarios.
Import Config Backends Chunking Minutes.

Definition scenario_A (sample : Type) (listener : bool)
  : Audio.AudioRecorder sample :=
  Audio.start sample
    (Audio.init sample 16000 (QArith_base.Qmake 5 1) (QArith_base.Qmake 15 1))
    listener.

(** Five seconds of silence at 16 kHz. *)
Definition five_seconds : list unit := repeat tt (Z.to_nat 80000).

(** Two samples per second, 1 s steps, 2 s windows. *)
Definition small_recorder : Audio.AudioRecorder Z :=
  Audio.start Z
    (Audio.init Z 2 (QArith_base.Qmake 1 1) (QArith_base.Qmake 2 1)) false.

(** A step-sized block: two samples. *)
Definition step_block : list Z := [0; 0].

(** An interpreter table with no digit outside ASCII. *)
Definition no_digits : Py.char -> option Z := fun _ => None.

(** A backend that always answers nashi. *)
Definition replies_nashi : Backend := fun _ _ => Text nashi.

(** A backend that always fails. *)
Definition always_fails : Backend := fun _ _ => Raises (Py.lit "timeout").

(** Scenario B: 25 entries of 1,000 rendered characters each. *)
Definition scenario_B : list TranscriptEntry :=
  map (fun i => mkEntry (mkDatetime 0 10 0 0) (repeat 97%N 989) (Z.of_nat i))
      (seq 0 25).

(** One entry of 20,001 rendered characters. *)
Definition long_entry : TranscriptEntry :=
  mkEntry (mkDatetime 0 10 0 0) (repeat 97%N (Z.to_nat 19990)) 0.

(** Sixty entries of 1,000 rendered characters each. *)
Definition scenario_long : list TranscriptEntry :=
  map (fun i => mkEntry (mkDatetime 0 10 0 0) (repeat 97%N 989) (Z.of_nat i))
      (seq 0 60).

(** A backend that finds a change of topic every ten entries: its replies
    are 10, 20, 30, ... *)
Definition topic_every_ten : Backend :=
  fun n _ => Text (Py.str_of_int (10 * (Z.of_nat n + 1))).

(** The prompts of the scan of [scenario_long] with that backend: the
    windows start at 0, 10, 20, 30 and 40 and hold at most 29 entries. *)
Definition scan_prompts : list Prompt :=
  map (fun k => BOUNDARY_DETECTION_PROMPT
                  (window_text (10 * Z.of_nat k)
                     (firstn 29
                        (Py.slice_from scenario_long (10 * Z.of_nat k)))))
      (seq 0 5).

Definition two_entries : list TranscriptEntry :=
  [mkEntry (mkDatetime 0 10 0 0) (Py.lit "hello") 0;
   mkEntry (mkDatetime 0 10 0 5) (Py.lit "world") 1].

Definition noon : datetime := mkDatetime 0 12 0 0.

Definition plain_template : Template :=
  mkTemplate (Py.lit "default") (Py.lit "# minutes") [].

(** A renderer that returns the template text as it is. *)
Definition plain_render : Template -> Context -> Py.str -> Py.str :=
  fun t _ _ => content t.

Definition first_entry : TranscriptEntry := mkEntry noon (Py.lit "hello") 0.

Definition empty_world : World := mkWorld [] [] 0.

(** A session just created, with version history on. *)
Definition fresh_session : MinutesUpdater :=
  Minutes.init plain_template noon true false.

(** A session after one committed update of one entry. *)
Definition session_after_one : MinutesUpdater :=
  mkUpdater plain_template noon false false 1 1 (Py.lit "doc").

(** The backend raises on every call. *)
Definition failing_env : Env :=
  mkEnv (fun _ _ => Raises (Py.lit "boom")) (fun _ => None).

(** The backend answers; the first write to the disk fails. *)
Definition first_write_fails : Env :=
  mkEnv (fun _ _ => Text (Py.lit "doc"))
        (fun n => if Nat.eqb n 0 then Some (Py.lit "disk full") else None).

(** The backend answers and the disk works. *)
Definition working_env : Env :=
  mkEnv (fun _ _ => Text (Py.lit "doc")) (fun _ => None).

Definition failed_run : outcome UpdateResult * state :=
  update plain_render failing_env [first_entry] false noon
    (fresh_session, empty_world).

Definition first_prompt : Prompt :=
  FULL_GENERATION_PROMPT
    (plain_render (template fresh_session)
       (get_default_context (start_time fresh_session) noon 1)
       (full_transcript_text [first_entry]))
    (full_transcript_text [first_entry]).

(** The session after an update whose version file could not be written. *)
Definition after_failed_save : state :=
  snd (update plain_render first_write_fails [first_entry] false noon
         (fresh_session, empty_world)).

End Scenarios.


(* ================================================================== *)
(** ** Notions used for the queue *)

Module Queueing.

(** The last [n] elements of a list, in order. *)
Definition keep_last {A} (n : nat) (l : list A) : list A :=
  skipn (length l - n) l.

End Queueing.

(* ================================================================== *)
(** ** Notions used for the chunks *)

Module Tiling.
Import Config Backends Chunking.

(** The chunks cover the positions [from .. upto - 1] of the transcript, in
    order, without gap or overlap, none of them empty, and the index fields
    of each chunk say where its entries are. *)
Fixpoint tiles (transcripts : list TranscriptEntry) (from : Z)
  (chunks : list Chunk) (upto : Z) : Prop :=
  match chunks with
  | [] => from = upto
  | c :: rest =>
      start_index c = from
      /\ from <= end_index c
      /\ entries c = Py.slice transcripts from (end_index c + 1)
      /\ entries c <> []
      /\ tiles transcripts (end_index c + 1) rest upto
  end.

(** Each boundary is at or after the window it was found in, which starts
    at [window_start] and then at the boundary before. *)
Fixpoint ascending_from (window_start : Z) (boundaries : list Z) : Prop :=
  match boundaries with
  | [] => True
  | b :: rest => window_start <= b /\ ascending_from b rest
  end.

Definition is_boundary_prompt (p : Prompt) : Prop :=
  exists t, p = BOUNDARY_DETECTION_PROMPT t.

End Tiling.

(* ================================================================== *)
(** ** chunking.py: MapReduceGenerator *)

Module MapReduce.
Import Config Backends Chunking.

(** The word between [##] and the part number. *)
Definition part : Py.str := [12497%N; 12540%N; 12488%N].

(** The extract of a chunk under its heading: [## <part> i/total], a
    newline, then the backend's text. *)
Definition labelled (chunk_num total_chunks : Z) (result : Py.str)
  : Py.str :=
  Py.lit "## " ++ part ++ Py.lit " " ++ Py.str_of_int chunk_num
    ++ Py.lit "/" ++ Py.str_of_int total_chunks ++ Py.newline ++ result.

(** A value returned, or the message of the exception raised. *)
Inductive outcome (A : Type) :=
| Done (a : A)
| Failed (message : Py.str).
Arguments Done {A}.
Arguments Failed {A}.

(** The prompt of the extraction of one chunk. *)
Definition extract_prompt (chunk : Chunk) : Prompt :=
  EXTRACT_POINTS_PROMPT (to_text chunk).

(** The headings of the replies, numbered from [i + 1]. *)
Fixpoint labels (i total : Z) (replies : list Py.str) : list Py.str :=
  match replies with
  | [] => []
  | r :: rest => labelled (i + 1) total r :: labels (i + 1) total rest
  end.

Section Generator.
Variable nonascii_digit : Py.char -> option Z.
Variable backend : Backend.

(** [MapReduceGenerator._extract_points] *)
Definition _extract_points (chunk : Chunk) (chunk_num total_chunks : Z)
  (log : list Prompt) : outcome Py.str * list Prompt :=
  let (r, log') := Backends.generate backend log (extract_prompt chunk) in
  match r with
  | Text result => (Done (labelled chunk_num total_chunks result), log')
  | Raises e => (Failed e, log')
  end.

(** The [for i, chunk in enumerate(chunks)] loop of [generate], from
    position [i]. *)
Fixpoint extract_loop (chunks : list Chunk) (i total : Z)
  (points_list : list Py.str) (log : list Prompt)
  : outcome (list Py.str) * list Prompt :=
  match chunks with
  | [] => (Done points_list, log)
  | chunk :: rest =>
      match _extract_points chunk (i + 1) total log with
      | (Done points, log') =>
          extract_loop rest (i + 1) total (points_list ++ [points]) log'
      | (Failed e, log') => (Failed e, log')
      end
  end.

(** [MapReduceGenerator._merge_points] *)
Definition _merge_points (points_list : list Py.str)
  (template_text : Py.str) (log : list Prompt)
  : outcome Py.str * list Prompt :=
  let all_points := Py.join (Py.newline ++ Py.newline) points_list in
  let (r, log') :=
    Backends.generate backend log
      (MERGE_POINTS_PROMPT template_text all_points) in
  match r with
  | Text result => (Done result, log')
  | Raises e => (Failed e, log')
  end.

(** [MapReduceGenerator.generate]; [None] when the scan of the splitter
    runs out of fuel. *)
Definition generate (fuel : nat) (transcripts : list TranscriptEntry)
  (template_text : Py.str) (log : list Prompt)
  : option (outcome Py.str * list Prompt) :=
  match split nonascii_digit backend fuel transcripts log with
  | None => None
  | Some (chunks, log1) =>
      Some (match extract_loop chunks 0 (Py.len chunks) [] log1 with
            | (Done points_list, log2) =>
                _merge_points points_list template_text log2
            | (Failed e, log2) => (Failed e, log2)
            end)
  end.

(** The backend answered the extraction of [chunk] with [reply]. *)
Definition answered (chunk : Chunk) (reply : Py.str) : Prop :=
  exists n, backend n (extract_prompt chunk) = Text reply.

End Generator.

End MapReduce.

(* ================================================================== *)
(** ** transcriber.py *)

Module Transcriber.

(** The loop of [Transcriber.transcribe] over the texts of the segments
    the recogniser returned: each is stripped and kept if not empty. *)
Fixpoint stripped_texts (segments : list Py.str) : list Py.str :=
  match segments with
  | [] => []
  | segment :: rest =>
      match Py.strip segment with
      | [] => stripped_texts rest
      | text => text :: stripped_texts rest
      end
  end.

(** [Transcriber.transcribe], from the segment texts: [' '.join(texts)] *)
Definition transcribe (segments : list Py.str) : Py.str :=
  Py.join [32%N] (stripped_texts segments).

(** A text that is not empty and neither starts nor ends with a white
    space. *)
Definition trimmed (s : Py.str) : Prop :=
  (exists c t, s = c :: t /\ Py.isspace c = false)
  /\ (exists t c, s = t ++ [c] /\ Py.isspace c = false).

End Transcriber.

(* ================================================================== *)
(** ** main.py: the transcript log *)

Module Session.
Import Config.

(** [self.transcripts] and [self.transcript_index] of
    [MeetingTranscriber]. *)
Record TranscriptLog := mkLog {
  transcripts : list TranscriptEntry;
  transcript_index : Z
}.

(** As [MeetingTranscriber.__init__] leaves them. *)
Definition empty_log : TranscriptLog := mkLog [] 0.

(** One turn of [_transcribe_loop] after a window was popped: [text] is
    what the transcriber returned for it and [now] the clock. *)
Definition on_window (log : TranscriptLog) (text : Py.str) (now : datetime)
  : TranscriptLog :=
  match text with
  | [] => log
  | _ :: _ =>
      mkLog (transcripts log ++ [mkEntry now text (transcript_index log)])
            (transcript_index log + 1)
  end.

(** The turns of [_transcribe_loop] for the windows popped, in order. *)
Fixpoint transcribe_loop (log : TranscriptLog)
  (heard : list (Py.str * datetime)) : TranscriptLog :=
  match heard with
  | [] => log
  | (text, now) :: rest => transcribe_loop (on_window log text now) rest
  end.

(** The texts that are not empty. *)
Definition spoken (heard : list (Py.str * datetime))
  : list (Py.str * datetime) :=
  filter (fun h => match fst h with [] => false | _ :: _ => true end) heard.

End Session.

(* ================================================================== *)
(** ** audio.py: AudioRecorder.list_devices *)

Module AudioDevices.
Section Devices.
(** A sample rate as the device reports it (its value is only copied). *)
Variable rate : Type.

(** One entry of [sd.query_devices()]. *)
Record Device := mkDevice {
  name : Py.str;
  max_input_channels : Z;
  default_samplerate : rate
}.

(** One entry of the result. *)
Record InputDevice := mkInput {
  id : Z;
  input_name : Py.str;
  channels : Z;
  sample_rate : rate
}.

Definition as_input (i : Z) (device : Device) : InputDevice :=
  mkInput i (name device) (max_input_channels device)
    (default_samplerate device).

(** The [for i, device in enumerate(devices)] loop from position [i]. *)
Fixpoint list_from (i : Z) (devices : list Device) : list InputDevice :=
  match devices with
  | [] => []
  | device :: rest =>
      if max_input_channels device >? 0
      then as_input i device :: list_from (i + 1) rest
      else list_from (i + 1) rest
  end.

(** [AudioRecorder.list_devices] on the devices the host reports. *)
Definition list_devices (devices : list Device) : list InputDevice :=
  list_from 0 devices.

End Devices.
End AudioDevices.

(* ================================================================== *)
(** ** backends/factory.py *)

Module Factory.

Inductive BackendClass :=
| AnthropicAPIBackend
| ClaudeAgentBackend
| ClaudeCLIBackend.

(** What [get_backend] raises: one of its own [RuntimeError]s, or an
    exception of a check or of a constructor, which it does not catch. *)
Inductive FactoryError :=
| NoApiKey
| NoOAuthToken
| NoClaudeCLI
| NoBackendAvailable
| Uncaught (message : Py.str).

(** [from claude_code_sdk import query]: the module is imported, the
    import raises [ImportError], or it raises something else. *)
Inductive import_result :=
| Imported
| ImportError
| ImportRaises (message : Py.str).

(** [subprocess.run(['claude', '--version'], ..., timeout=5)]: the
    process exits, the call raises [FileNotFoundError], or it raises
    something else ([TimeoutExpired], [PermissionError]). *)
Inductive run_result :=
| Exits (returncode : Z)
| FileNotFoundError
| RunRaises (message : Py.str).

(** What [get_backend] reads from the host: whether [ANTHROPIC_API_KEY]
    and [CLAUDE_CODE_OAUTH_TOKEN] are set to a non-empty value, the import
    of the SDK, the run of the CLI, and what the constructors
    [anthropic.Anthropic()] and [ClaudeCodeOptions(max_tokens=8192)] raise,
    if they raise. *)
Record Host := mkHost {
  api_key : bool;
  oauth_token : bool;
  sdk_import : import_result;
  claude_version : run_result;
  new_client : option Py.str;
  new_options : option Py.str
}.

(** The values of [config.backend] that name a backend. *)
Definition config_name (c : BackendClass) : Py.str :=
  match c with
  | AnthropicAPIBackend => Py.lit "api"
  | ClaudeAgentBackend => Py.lit "claude-agent"
  | ClaudeCLIBackend => Py.lit "claude-cli"
  end.

(** The [RuntimeError] of [get_backend] for a named backend whose check
    fails. *)
Definition missing (c : BackendClass) : FactoryError :=
  match c with
  | AnthropicAPIBackend => NoApiKey
  | ClaudeAgentBackend => NoOAuthToken
  | ClaudeCLIBackend => NoClaudeCLI
  end.

(** [check_available()] of each class; for the API it is the test of
    [ANTHROPIC_API_KEY] that [get_backend] makes itself. *)
Definition check_available (c : BackendClass) (host : Host)
  : bool + FactoryError :=
  match c with
  | AnthropicAPIBackend => inl (api_key host)
  | ClaudeAgentBackend =>
      match sdk_import host with
      | Imported => inl (oauth_token host)
      | ImportError => inl false
      | ImportRaises message => inr (Uncaught message)
      end
  | ClaudeCLIBackend =>
      match claude_version host with
      | Exits returncode => inl (returncode =? 0)
      | FileNotFoundError => inl false
      | RunRaises message => inr (Uncaught message)
      end
  end.

(** The constructor of each class; [ClaudeCLIBackend] has no [__init__]. *)
Definition construct (c : BackendClass) (host : Host)
  : BackendClass + FactoryError :=
  match c with
  | AnthropicAPIBackend =>
      match new_client host with
      | None => inl AnthropicAPIBackend
      | Some message => inr (Uncaught message)
      end
  | ClaudeAgentBackend =>
      match new_options host with
      | None => inl ClaudeAgentBackend
      | Some message => inr (Uncaught message)
      end
  | ClaudeCLIBackend => inl ClaudeCLIBackend
  end.

(** [get_backend(config)], from [config.backend]. *)
Definition get_backend (backend : Py.str) (host : Host)
  : BackendClass + FactoryError :=
  if Py.str_eqb backend (Py.lit "api") then
    if negb (api_key host) then inr NoApiKey
    else construct AnthropicAPIBackend host
  else if Py.str_eqb backend (Py.lit "claude-agent") then
    match check_available ClaudeAgentBackend host with
    | inr e => inr e
    | inl available =>
        if negb available then inr NoOAuthToken
        else construct ClaudeAgentBackend host
    end
  else if Py.str_eqb backend (Py.lit "claude-cli") then
    match check_available ClaudeCLIBackend host with
    | inr e => inr e
    | inl available =>
        if negb available then inr NoClaudeCLI
        else construct ClaudeCLIBackend host
    end
  else
    match check_available ClaudeAgentBackend host with
    | inr e => inr e
    | inl true => construct ClaudeAgentBackend host
    | inl false =>
        match check_available ClaudeCLIBackend host with
        | inr e => inr e
        | inl true => construct ClaudeCLIBackend host
        | inl false =>
            if api_key host then construct AnthropicAPIBackend host
            else inr NoBackendAvailable
        end
    end.

End Factory.

(* ================================================================== *)
(** ** Notions used for the sessions *)

Module Sessions.
Import Minutes.

(** The counter and the index of a session agree: the counter is not
    negative, and while no update is counted no entry is marked as
    consumed.  [__init__] gives such a session. *)
Definition consistent (self : MinutesUpdater) : Prop :=
  0 <= update_count self
  /\ (update_count self = 0 -> last_update_index self = 0).

End Sessions.

(* ================================================================== *)
(** ** minutes.py: [update] under exceptions that are not [Exception]s *)

Module Interrupts.
Import Config Backends Minutes.

(** What a collaborator raises: an exception whose class derives from
    [Exception], or one that does not ([KeyboardInterrupt], [SystemExit],
    [GeneratorExit]); [except Exception] catches the first kind only. *)
Inductive exn :=
| Exception (message : Py.str)
| BaseException (message : Py.str).

(** What a call to a collaborator does: return a text or raise. *)
Inductive answer :=
| Returns (text : Py.str)
| Throws (e : exn).

(** The environment: the backend's answer to the [n]-th call of the
    session, given the prompt, and what the [n]-th [write_text] raises, if
    it raises. *)
Record Env := mkEnv {
  backend : nat -> Prompt -> answer;
  write_text : nat -> option exn
}.

Inductive outcome (A : Type) :=
| Ok (a : A)
| Raise (e : exn).
Arguments Ok {A}.
Arguments Raise {A}.

Definition M (A : Type) : Type := state -> outcome A * state.

Definition ret {A} (a : A) : M A := fun s => (Ok a, s).

Definition bind {A B} (m : M A) (k : A -> M B) : M B :=
  fun s => match m s with
           | (Ok a, s') => k a s'
           | (Raise e, s') => (Raise e, s')
           end.

(** [try: body except Exception as e: handler(str(e))]: an exception that
    is not an [Exception] goes through. *)
Definition try_except {A} (body : M A) (handler : Py.str -> M A) : M A :=
  fun s => match body s with
           | (Ok a, s') => (Ok a, s')
           | (Raise (Exception message), s') => handler message s'
           | (Raise (BaseException message), s') =>
               (Raise (BaseException message), s')
           end.

Notation "x <~ m ;; k" := (bind m (fun x => k))
  (at level 61, m at next level, right associativity).
Notation "m ;;~ k" := (bind m (fun _ => k))
  (at level 61, right associativity).

Definition get_self : M MinutesUpdater := fun s => (Ok (fst s), s).

Definition set_update_count (n : Z) : M unit :=
  fun s => (Ok tt, (counting (fst s) n, snd s)).

Definition set_current_minutes (m : Py.str) : M unit :=
  fun s => let self := fst s in
    (Ok tt, (committed self m (last_update_index self) (update_count self),
             snd s)).

Definition set_last_update_index (n : Z) : M unit :=
  fun s => let self := fst s in
    (Ok tt, (committed self (current_minutes self) n (update_count self),
             snd s)).

Section Updater.
Variable render : Template -> Context -> Py.str -> Py.str.
Variable env : Env.

(** [self.backend.generate(prompt)] *)
Definition backend_generate (p : Prompt) : M Py.str :=
  fun s =>
    let s' := (fst s, asked (snd s) p) in
    match backend env (length (calls (snd s))) p with
    | Returns t => (Ok t, s')
    | Throws e => (Raise e, s')
    end.

(** [MinutesGenerator.generate_full] *)
Definition generate_full (transcripts : list TranscriptEntry)
  (t : Template) (context : Context) : M Py.str :=
  let transcript_text := full_transcript_text transcripts in
  let rendered_template := render t context transcript_text in
  backend_generate (FULL_GENERATION_PROMPT rendered_template
                      transcript_text).

(** [MinutesGenerator.generate_incremental] *)
Definition generate_incremental (current : Py.str)
  (new_transcripts : list TranscriptEntry) : M Py.str :=
  let new_transcript_text :=
    Py.join Py.newline (map entry_str new_transcripts) in
  backend_generate (INCREMENTAL_UPDATE_PROMPT current new_transcript_text).

(** [MinutesUpdater._save_version]: one [write_text]. *)
Definition _save_version : M unit :=
  fun s =>
    let self := fst s in
    let w := snd s in
    match write_text env (write_attempts w) with
    | Some e =>
        (Raise e, (self, mkWorld (calls w) (history_files w)
                           (S (write_attempts w))))
    | None =>
        (Ok tt, (self, mkWorld (calls w)
                         ((update_count self, current_minutes self)
                            :: history_files w)
                         (S (write_attempts w))))
    end.

(** The end of the [try] block of [update], after the document is set. *)
Definition commit (transcripts : list TranscriptEntry)
  (new_entries_count : Z) : M UpdateResult :=
  set_last_update_index (Py.len transcripts) ;;~
  self <~ get_self ;;
  (if version_history self && negb (simple_mode self)
   then _save_version else ret tt) ;;~
  self <~ get_self ;;
  ret (mkResult true (current_minutes self) new_entries_count
         (Py.len transcripts) (update_count self) None).

(** [MinutesUpdater.update]; [now] is the clock read by the call. *)
Definition update (transcripts : list TranscriptEntry) (full : bool)
  (now : datetime) : M UpdateResult :=
  match transcripts with
  | [] =>
      self <~ get_self ;;
      ret (mkResult false [] 0 0 (update_count self) (Some no_transcript))
  | _ :: _ =>
      try_except
        (self <~ get_self ;;
         set_update_count (update_count self + 1) ;;~
         self <~ get_self ;;
         let context :=
           get_default_context (start_time self) now (update_count self) in
         if full || (update_count self =? 1) then
           doc <~ generate_full transcripts (template self) context ;;
           set_current_minutes doc ;;~
           commit transcripts (Py.len transcripts)
         else
           let new_transcripts := get_new_transcripts self transcripts in
           match new_transcripts with
           | [] =>
               set_update_count (update_count self - 1) ;;~
               self <~ get_self ;;
               ret (mkResult true (current_minutes self) 0
                      (Py.len transcripts) (update_count self) None)
           | _ :: _ =>
               doc <~ generate_incremental (current_minutes self)
                        new_transcripts ;;
               set_current_minutes doc ;;~
               commit transcripts (Py.len new_transcripts)
           end)
        (fun e =>
           self <~ get_self ;;
           set_update_count (update_count self - 1) ;;~
           self <~ get_self ;;
           ret (mkResult false (current_minutes self) 0
                  (Py.len transcripts) (update_count self) (Some e)))
  end.

End Updater.

(** An environment whose failures are all [Exception]s, from the backend
    and the disk of the updater above. *)
Definition of_exceptions (e : Minutes.Env) : Env :=
  mkEnv (fun n p => match Minutes.backend e n p with
                    | Text t => Returns t
                    | Raises m => Throws (Exception m)
                    end)
        (fun n => match Minutes.write_error e n with
                  | Some m => Some (Exception m)
                  | None => None
                  end).

(** A backend interrupted from the keyboard during its first call. *)
Definition interrupted_env : Env :=
  mkEnv (fun _ _ => Throws (BaseException (Py.lit "KeyboardInterrupt")))
        (fun _ => None).

End Interrupts.

(* ================================================================== *)
(** * Properties *)

(** ** Lists, slices and strings *)

Module PyFacts.
Import Py.

Lemma len_nonneg {A} (l : list A) : 0 <= len l.
Proof. unfold len. lia. Qed.

Lemma len_app {A} (a b : list A) : len (a ++ b) = len a + len b.
Proof. unfold len. rewrite length_app. lia. Qed.

Lemma len_nil {A} : len (@nil A) = 0.
Proof. reflexivity. Qed.

Lemma len_cons {A} (x : A) (l : list A) : len (x :: l) = len l + 1.
Proof. unfold len. cbn [length]. lia. Qed.

Lemma len_zero_nil {A} (l : list A) : len l = 0 -> l = [].
Proof.
  destruct l; [reflexivity | ].
  rewrite len_cons. pose proof (len_nonneg l). lia.
Qed.

(** A slice [l[i:]] is a suffix of [l], whatever [i] is. *)
Lemma slice_from_suffix {A} (l : list A) (i : Z) :
  exists pre, l = pre ++ slice_from l i.
Proof.
  unfold slice_from.
  exists (firstn (Z.to_nat (norm_index (len l) i)) l).
  symmetry. apply firstn_skipn.
Qed.

Lemma slice_from_0 {A} (l : list A) : slice_from l 0 = l.
Proof. unfold slice_from, norm_index. cbn. pose proof (len_nonneg l).
       replace (Z.to_nat (Z.min 0 (len l))) with 0%nat by lia. reflexivity. Qed.

(** [l[-k:]] keeps the last [k] elements when [0 < k <= len l]. *)
Lemma len_slice_from_neg {A} (l : list A) (k : Z) :
  0 < k <= len l -> len (slice_from l (- k)) = k.
Proof.
  intros Hk. unfold slice_from, norm_index.
  destruct (Z.ltb_spec (- k) 0) as [_ | H]; [ | lia].
  unfold len in *. rewrite length_skipn. lia.
Qed.

Lemma slice_from_neg_app {A} (a b : list A) (k : Z) :
  0 < k -> len b = k -> slice_from (a ++ b) (- k) = b.
Proof.
  intros Hk Hb. unfold slice_from, norm_index.
  destruct (Z.ltb_spec (- k) 0) as [_ | H]; [ | lia].
  rewrite len_app.
  replace (Z.to_nat (Z.max 0 (- k + (len a + len b)))) with (length a)
    by (unfold len in *; lia).
  rewrite skipn_app, skipn_all, Nat.sub_diag. reflexivity.
Qed.

(** For bounds inside the list, [l[a:b]] is [firstn (b - a) (skipn a l)]. *)
Lemma slice_inside {A} (l : list A) (a b : Z) :
  0 <= a <= b ->
  slice l a b = firstn (Z.to_nat (b - a)) (skipn (Z.to_nat a) l).
Proof.
  intros H. unfold slice, norm_index.
  destruct (Z.ltb_spec a 0); [lia | ].
  destruct (Z.ltb_spec b 0); [lia | ].
  pose proof (len_nonneg l) as Hl.
  destruct (Z.le_gt_cases a (len l)) as [Ha | Ha].
  - rewrite (Z.min_l a) by lia.
    destruct (Z.le_gt_cases b (len l)) as [Hb | Hb].
    + rewrite (Z.min_l b) by lia. reflexivity.
    + rewrite (Z.min_r b) by lia.
      rewrite !firstn_all2; [reflexivity | | ];
        rewrite length_skipn; unfold len in *; lia.
  - rewrite (Z.min_r a), (Z.min_r b) by lia.
    rewrite !skipn_all2 by (unfold len in *; lia).
    rewrite !firstn_nil. reflexivity.
Qed.

Lemma slice_from_inside {A} (l : list A) (a : Z) :
  0 <= a -> slice_from l a = skipn (Z.to_nat a) l.
Proof.
  intros H. unfold slice_from, norm_index.
  destruct (Z.ltb_spec a 0); [lia | ].
  destruct (Z.le_gt_cases a (len l)) as [Ha | Ha].
  - rewrite Z.min_l by lia. reflexivity.
  - rewrite Z.min_r by lia.
    rewrite !skipn_all2; unfold len in *; try lia. reflexivity.
Qed.

(** Two adjacent slices make one. *)
Lemma firstn_slice_app {A} (l : list A) (a b : Z) :
  0 <= a <= b ->
  firstn (Z.to_nat a) l ++ slice l a b = firstn (Z.to_nat b) l.
Proof.
  intros H. rewrite slice_inside by assumption.
  replace (Z.to_nat b) with (Z.to_nat a + Z.to_nat (b - a))%nat by lia.
  generalize (Z.to_nat a) (Z.to_nat (b - a)). clear.
  intros n m. revert l. induction n as [| n IH]; intros l; cbn.
  - reflexivity.
  - destruct l as [| x l]; cbn.
    + rewrite firstn_nil. reflexivity.
    + f_equal. apply IH.
Qed.

End PyFacts.

(* ================================================================== *)
(** ** The windowing buffer and its queue *)

Module AudioFacts.
Import Py PyFacts Audio Scenarios.

Section Facts.
Variable sample : Type.
Local Notation "'recorder'" := (AudioRecorder sample).
Local Notation "'block'" := (list sample).

(** *** The queue *)

Lemma enqueue_drop_oldest_spec (q : list block) (chunk : block) :
  len q <= QUEUE_MAXSIZE ->
  exists q', enqueue_drop_oldest sample q chunk = (q', false)
             /\ len q' <= QUEUE_MAXSIZE
             /\ (len q < QUEUE_MAXSIZE -> q' = q ++ [chunk])
             /\ (len q = QUEUE_MAXSIZE -> q' = tl q ++ [chunk]).
Proof.
  unfold enqueue_drop_oldest, put_nowait, QUEUE_MAXSIZE.
  intros Hq.
  destruct (Z.ltb_spec (len q) 10) as [Hlt | Hge].
  - exists (q ++ [chunk]). rewrite len_app, len_cons, len_nil.
    repeat split; intros; try reflexivity; lia.
  - destruct q as [| x q1]; [rewrite len_nil in Hge; lia | ].
    cbn [get_nowait tl]. rewrite len_cons in *.
    destruct (Z.ltb_spec (len q1) 10) as [H1 | H1]; [ | lia].
    exists (q1 ++ [chunk]). rewrite len_app, len_cons, len_nil.
    repeat split; intros; try reflexivity; lia.
Qed.

(** *** One window *)

Lemma build_chunk_spec (self : recorder) (new_audio : block) :
  0 < window_samples _ self ->
  (exists pre, kept self ++ new_audio = pre ++ build_chunk _ self new_audio)
  /\ len (build_chunk _ self new_audio)
     = Z.min (len (kept self) + len new_audio) (window_samples _ self).
Proof.
  intros HW. unfold build_chunk, kept.
  set (chunk := match _keep_buffer _ self with
                | Some keep => keep ++ new_audio
                | None => new_audio
                end).
  assert (Hc : match _keep_buffer _ self with
               | Some k => k | None => [] end ++ new_audio = chunk)
    by (unfold chunk; destruct (_keep_buffer _ self); reflexivity).
  rewrite Hc.
  assert (Hl : len (match _keep_buffer _ self with
                    | Some k => k | None => [] end) + len new_audio
               = len chunk) by (rewrite <- Hc, len_app; reflexivity).
  rewrite Hl.
  destruct (Z.gtb_spec (len chunk) (window_samples _ self)) as [Hgt | Hle].
  - split; [apply slice_from_suffix | ].
    rewrite len_slice_from_neg by lia. lia.
  - split; [exists []; reflexivity | lia].
Qed.

Lemma next_keep_spec (self : recorder) (chunk : block) :
  step_samples _ self <= window_samples _ self ->
  (exists x, chunk = x ++ next_keep _ self chunk)
  /\ len (next_keep _ self chunk) = keep_len self chunk.
Proof.
  intros Hs. unfold next_keep, keep_len.
  set (ks := window_samples _ self - step_samples _ self).
  assert (0 <= ks) by (unfold ks; lia).
  destruct (Z.gtb_spec (len chunk) ks) as [Hgt | Hle].
  - split; [apply slice_from_suffix | ].
    destruct (Z.eqb_spec ks 0) as [E | E].
    + rewrite E. cbn [Z.opp]. rewrite slice_from_0. reflexivity.
    + rewrite len_slice_from_neg by lia. lia.
  - split; [exists []; reflexivity | ].
    destruct (Z.eqb_spec ks 0); lia.
Qed.

Lemma concat_snoc (l : list block) (b : block) :
  concat (l ++ [b]) = concat l ++ b.
Proof. rewrite concat_app. cbn. rewrite app_nil_r. reflexivity. Qed.

(** The callback when the step threshold is reached. *)
Lemma callback_emits (self : recorder) (b : block) :
  _is_paused _ self = false ->
  step_samples _ self <= _buffer_samples _ self + len b ->
  len (_audio_queue _ self) <= QUEUE_MAXSIZE ->
  exists q',
    enqueue_drop_oldest _ (_audio_queue _ self)
      (build_chunk _ self (concat (_buffer _ self ++ [b]))) = (q', false)
    /\ len q' <= QUEUE_MAXSIZE
    /\ _audio_callback _ self b
       = Returned
           (mkRecorder _ (sample_rate _ self) (step_samples _ self)
              (window_samples _ self) q' [] 0
              (Some (next_keep _ self
                       (build_chunk _ self
                          (concat (_buffer _ self ++ [b])))))
              (_is_recording _ self) (_is_paused _ self)
              (_on_chunk_callback _ self))
           (Some (build_chunk _ self (concat (_buffer _ self ++ [b])))).
Proof.
  intros Hp Hge Hq.
  destruct (enqueue_drop_oldest_spec (_audio_queue _ self)
              (build_chunk _ self (concat (_buffer _ self ++ [b]))) Hq)
    as (q' & Hq' & Hlen & _).
  exists q'. split; [exact Hq' | split; [exact Hlen | ]].
  unfold _audio_callback. rewrite Hp.
  cbn [_buffer_samples _buffer step_samples with_buffer].
  destruct (Z.geb_spec (_buffer_samples _ self + len b)
              (step_samples _ self)) as [_ | Hlt]; [ | lia].
  change (build_chunk _ (with_buffer _ self (_buffer _ self ++ [b])
                           (_buffer_samples _ self + len b)))
    with (build_chunk _ self).
  match goal with
  | |- (let (_, _) := ?X in _) = _ =>
      replace X with (q', false) by (symmetry; exact Hq')
  end.
  unfold with_queue, with_buffer, with_keep; cbn.
  rewrite ?Hp. reflexivity.
Qed.

(** The callback below the step threshold. *)
Lemma callback_buffers (self : recorder) (b : block) :
  _is_paused _ self = false ->
  _buffer_samples _ self + len b < step_samples _ self ->
  _audio_callback _ self b
  = Returned (with_buffer _ self (_buffer _ self ++ [b])
                (_buffer_samples _ self + len b)) None.
Proof.
  intros Hp Hlt. unfold _audio_callback. rewrite Hp.
  cbn [_buffer_samples _buffer step_samples with_buffer].
  destruct (Z.geb_spec (_buffer_samples _ self + len b)
              (step_samples _ self)) as [Hge | _]; [lia | reflexivity].
Qed.

Lemma callback_step (self : recorder) (S : block)
  (last : option (emission sample)) (b : block) :
  0 < window_samples _ self ->
  step_samples _ self <= window_samples _ self ->
  _is_paused _ self = false ->
  inv self S last ->
  exists self' out,
    _audio_callback _ self b = Returned self' out
    /\ same_settings self self'
    /\ match out with
       | None => inv self' (S ++ b) last
       | Some w =>
           let e := mkEmission (len (S ++ b)) w in
           inv self' (S ++ b) (Some e)
           /\ len w <= window_samples _ self
           /\ (exists pre, S ++ b = pre ++ w)
           /\ match last with
              | None => True
              | Some a =>
                  follows (step_samples _ self) (window_samples _ self) a e
              end
       end.
Proof.
  intros HW Hstep Hp (Hcount & Hpend & Hq & E & HS & Hlast).
  pose proof (concat_snoc (_buffer _ self) b) as Hnew.
  assert (Hn : _buffer_samples _ self + len b
               = len (concat (_buffer _ self ++ [b])))
    by (rewrite Hnew, len_app; lia).
  destruct (Z.le_gt_cases (step_samples _ self)
              (_buffer_samples _ self + len b)) as [Hge | Hlt].
  - (* a window is emitted *)
    destruct (callback_emits self b Hp Hge Hq) as (q' & _ & Hq' & Hcb).
    destruct (build_chunk_spec self (concat (_buffer _ self ++ [b])) HW)
      as [[pre Hpre] Hlen].
    revert Hcb Hpre Hlen.
    generalize (build_chunk _ self (concat (_buffer _ self ++ [b]))).
    intros chunk Hcb Hpre Hlen.
    destruct (next_keep_spec self chunk Hstep) as [[x Hx] Hklen].
    revert Hcb Hx Hklen. generalize (next_keep _ self chunk).
    intros keep Hcb Hx Hklen.
    rewrite Hnew in Hpre, Hlen, Hn.
    eexists. exists (Some chunk). split; [exact Hcb | ].
    split; [repeat split | ].
    assert (Hsuffix : exists pre', S ++ b = pre' ++ chunk).
    { destruct last as [a | ].
      - destruct Hlast as (_ & [p Hp'] & _ & k & Hk & [y Hy] & _).
        unfold kept in Hpre. rewrite Hk in Hpre.
        exists (p ++ y ++ pre).
        rewrite HS, Hp', Hy, <- !app_assoc.
        rewrite <- ?app_assoc in Hpre.
        do 2 f_equal. exact Hpre.
      - destruct Hlast as [Hk HE].
        unfold kept in Hpre. rewrite Hk in Hpre. cbn [app] in Hpre.
        exists pre. rewrite HS, HE. exact Hpre. }
    cbv zeta. split; [ | split; [lia | split; [exact Hsuffix | ]]].
    + (* the invariant *)
      unfold inv.
      cbn [_buffer_samples _buffer step_samples window_samples
             _audio_queue _keep_buffer concat e_end e_window].
      split; [reflexivity | ].
      split; [congruence | ].
      split; [exact Hq' | ].
      exists (S ++ b). rewrite app_nil_r.
      split; [reflexivity | ].
      split; [reflexivity | ].
      split; [exact Hsuffix | ].
      split; [lia | ].
      exists keep.
      split; [reflexivity | ].
      split; [exists x; exact Hx | exact Hklen].
    + (* the overlap with the previous window *)
      destruct last as [a | ]; [ | exact I].
      destruct Hlast as (Hend & _ & Ha & k & Hk & _ & Hkl).
      unfold kept in Hlen. rewrite Hk in Hlen.
      unfold follows, overlap, e_start. cbn [e_end e_window].
      assert (Hpos : len (S ++ b)
                     = e_end a + (len (concat (_buffer _ self)) + len b)).
      { rewrite Hend, HS, <- app_assoc, !len_app. lia. }
      rewrite len_app in Hlen.
      unfold keep_len in Hkl.
      pose proof (len_nonneg (e_window a)).
      pose proof (len_nonneg (concat (_buffer _ self))).
      pose proof (len_nonneg b).
      pose proof (len_nonneg k).
      rewrite Hpos, Hlen.
      destruct (Z.eqb_spec (window_samples _ self - step_samples _ self) 0);
        repeat split; lia.
  - (* the block is only buffered *)
    rewrite (callback_buffers self b Hp Hlt).
    eexists. exists None. split; [reflexivity | ].
    split; [repeat split | ].
    unfold inv.
    cbn [_buffer_samples _buffer step_samples window_samples
           _audio_queue _keep_buffer with_buffer].
    split; [exact Hn | ].
    split; [intros _; lia | ].
    split; [exact Hq | ].
    exists E. rewrite Hnew, app_assoc, <- HS.
    split; [reflexivity | ].
    destruct last as [a | ]; exact Hlast.
Qed.

(** *** Runs *)

Lemma feed_inv (blocks : list block) :
  forall (self : recorder) (S : block) (last : option (emission sample)),
    0 < window_samples _ self ->
    step_samples _ self <= window_samples _ self ->
    _is_paused _ self = false ->
    inv self S last ->
    exists self' es,
      feed _ self (len S) blocks
      = Some (self', len (S ++ concat blocks), es)
      /\ same_settings self self'
      /\ inv self' (S ++ concat blocks) (last_of last es)
      /\ Forall (fun e => len (e_window e) <= window_samples _ self) es
      /\ Forall (placed (S ++ concat blocks)) es
      /\ Forall (fun p => follows (step_samples _ self)
                            (window_samples _ self) (fst p) (snd p))
           (adjacent (before last es)).
Proof.
  induction blocks as [| b rest IH]; intros self S last HW Hstep Hp Hinv.
  - exists self, []. cbn [feed concat last_of]. rewrite app_nil_r.
    split; [reflexivity | ].
    split; [repeat split | ].
    split; [exact Hinv | ].
    split; [constructor | ].
    split; [constructor | ].
    destruct last as [a | ]; constructor.
  - destruct (callback_step self S last b HW Hstep Hp Hinv)
      as (self1 & out & Hcb & (Hs1 & Hs2 & Hs3) & Hout).
    cbn [feed]. rewrite Hcb, Hp. rewrite <- len_app.
    assert (Hcat : S ++ concat (b :: rest) = (S ++ b) ++ concat rest)
      by (cbn [concat]; apply app_assoc).
    rewrite Hcat.
    destruct out as [w | ].
    + cbv zeta in Hout. destruct Hout as (Hinv1 & Hw & [pre Hpre] & Hfol).
      destruct (IH self1 (S ++ b) (Some (mkEmission (len (S ++ b)) w)))
        as (self' & es & Hfeed & (Ht1 & Ht2 & Ht3) & Hinv' & Hb & Hpl & Hadj);
        try (rewrite ?Hs1, ?Hs2, ?Hs3; assumption).
      rewrite Hfeed. eexists. eexists. split; [reflexivity | ].
      rewrite Hs1, Hs2 in *.
      split; [repeat split; congruence | ].
      split; [exact Hinv' | ].
      split; [constructor; [exact Hw | exact Hb] | ].
      split.
      * constructor; [ | exact Hpl].
        exists pre, (concat rest). rewrite Hpre, <- app_assoc.
        split; [reflexivity | ].
        unfold e_start. cbn [e_end e_window].
        rewrite len_app. lia.
      * cbn [before] in Hadj.
        destruct last as [a | ]; cbn [before adjacent].
        -- constructor; [exact Hfol | exact Hadj].
        -- exact Hadj.
    + destruct (IH self1 (S ++ b) last)
        as (self' & es & Hfeed & (Ht1 & Ht2 & Ht3) & Hinv' & Hb & Hpl & Hadj);
        try (rewrite ?Hs1, ?Hs2, ?Hs3; assumption).
      rewrite Hfeed. eexists. eexists. split; [reflexivity | ].
      rewrite Hs1, Hs2 in *.
      split; [repeat split; congruence | ].
      split; [exact Hinv' | ].
      split; [exact Hb | ].
      split; [exact Hpl | exact Hadj].
Qed.

Lemma fresh_inv (self : recorder) : fresh self -> inv self [] None.
Proof.
  intros (Hb & Hn & Hk & Hq & _). unfold inv.
  rewrite Hb, Hn, Hq. cbn [concat].
  repeat split; try reflexivity; try congruence.
  - unfold QUEUE_MAXSIZE. rewrite len_nil. lia.
  - exists []. repeat split; assumption.
Qed.

Lemma fresh_start (rate : Z) (sd wd : QArith_base.Q) (listener : bool) :
  fresh (start sample (init sample rate sd wd) listener).
Proof. repeat split. Qed.

(** The window flushed by [stop] after a run. *)
Lemma stop_flush (self self' : recorder) (S w : block)
  (last : option (emission sample)) :
  step_samples _ self <= window_samples _ self ->
  inv self S last ->
  stop _ self = Some (self', Some w) ->
  len w < step_samples _ self
  /\ len w <= window_samples _ self
  /\ (exists pre, S = pre ++ w)
  /\ forall e, last = Some e -> overlap e (mkEmission (len S) w) = 0.
Proof.
  intros Hstep (Hcount & Hpend & _ & E & HS & Hlast) Hstop.
  unfold stop in Hstop. cbn [_buffer with_flags _audio_queue] in Hstop.
  destruct (_buffer _ self) as [| b0 bs] eqn:Hbuf; [discriminate | ].
  destruct (put _ (_audio_queue _ self) (concat (b0 :: bs)));
    [ | discriminate].
  injection Hstop as _ Hw. subst w.
  change (b0 ++ concat bs) with (concat (b0 :: bs)).
  assert (Hlt : len (concat (b0 :: bs)) < step_samples _ self)
    by (rewrite <- Hcount; apply Hpend; discriminate).
  split; [exact Hlt | ]. split; [lia | ].
  split; [exists E; exact HS | ].
  intros e He. subst last.
  destruct Hlast as (Hend & _).
  unfold overlap, e_start. cbn [e_end e_window].
  rewrite HS, len_app.
  pose proof (len_nonneg (e_window e)).
  pose proof (len_nonneg (concat (b0 :: bs))). lia.
Qed.

(** *** A recorder with nothing buffered *)

Lemma build_chunk_fits (self : recorder) (new_audio : block) :
  len (kept self) + len new_audio <= window_samples _ self ->
  build_chunk _ self new_audio = kept self ++ new_audio.
Proof.
  intros H. unfold build_chunk, kept in *.
  destruct (_keep_buffer _ self) as [k | ]; cbn [app] in *.
  - rewrite len_app.
    destruct (Z.gtb_spec (len k + len new_audio) (window_samples _ self));
      [lia | reflexivity].
  - rewrite len_nil in H.
    destruct (Z.gtb_spec (len new_audio) (window_samples _ self));
      [lia | reflexivity].
Qed.

Lemma next_keep_fits (self : recorder) (chunk : block) :
  len chunk <= window_samples _ self - step_samples _ self ->
  next_keep _ self chunk = chunk.
Proof.
  intros H. unfold next_keep.
  destruct (Z.gtb_spec (len chunk)
              (window_samples _ self - step_samples _ self));
    [lia | reflexivity].
Qed.

Lemma next_keep_cut (self : recorder) (x k : block) :
  0 < len x ->
  len k = window_samples _ self - step_samples _ self ->
  0 < len k ->
  next_keep _ self (x ++ k) = k.
Proof.
  intros Hx Hk Hpos. unfold next_keep. rewrite len_app, <- Hk.
  destruct (Z.gtb_spec (len x + len k) (len k)); [ | lia].
  apply slice_from_neg_app; [lia | reflexivity].
Qed.

Lemma callback_idle (self : recorder) (b : block) :
  idle self ->
  step_samples _ self <= len b ->
  len (kept self) + len b <= window_samples _ self ->
  exists self',
    _audio_callback _ self b = Returned self' (Some (kept self ++ b))
    /\ idle self'
    /\ step_samples _ self' = step_samples _ self
    /\ window_samples _ self' = window_samples _ self
    /\ _keep_buffer _ self' = Some (next_keep _ self (kept self ++ b)).
Proof.
  intros (Hb & Hn & Hp & Hq) Hstep Hfit.
  destruct (callback_emits self b Hp) as (q' & _ & Hq' & Hcb);
    [lia | exact Hq | ].
  rewrite Hb in Hcb. cbn [app concat] in Hcb. rewrite app_nil_r in Hcb.
  rewrite (build_chunk_fits self b Hfit) in Hcb.
  eexists. split; [exact Hcb | ].
  split; [repeat split; assumption | ].
  repeat split.
Qed.

End Facts.

(** *** Scenario A: 16 kHz, 5 s steps, 15 s windows, three 5 s blocks *)

Lemma len_repeat {A} (x : A) (n : nat) : len (repeat x n) = Z.of_nat n.
Proof. unfold len. rewrite repeat_length. reflexivity. Qed.

Lemma len_five_seconds : len five_seconds = 80000.
Proof.
  unfold five_seconds. rewrite len_repeat. apply Z2Nat.id.
  intros H. discriminate H.
Qed.

Lemma scenario_A_run (sample : Type) (listener : bool)
  (b1 b2 b3 : list sample) :
  len b1 = 80000 -> len b2 = 80000 -> len b3 = 80000 ->
  exists self',
    feed sample (scenario_A sample listener) 0 [b1; b2; b3]
    = Some (self', 240000,
            [mkEmission 80000 b1; mkEmission 160000 (b1 ++ b2);
             mkEmission 240000 ((b1 ++ b2) ++ b3)]).
Proof.
  intros H1 H2 H3.
  set (s0 := scenario_A sample listener).
  assert (I0 : idle s0)
    by (repeat split; unfold QUEUE_MAXSIZE; cbn; lia).
  assert (Hs0 : step_samples _ s0 = 80000) by reflexivity.
  assert (Hw0 : window_samples _ s0 = 240000) by reflexivity.
  assert (Hk0 : kept s0 = []) by reflexivity.
  destruct (callback_idle sample s0 b1 I0) as (s1 & C1 & I1 & Hs1 & Hw1 & Hk1);
    [lia | rewrite Hk0, len_nil; lia | ].
  rewrite Hk0 in C1, Hk1. cbn [app] in C1, Hk1.
  rewrite next_keep_fits in Hk1 by lia.
  assert (Hkept1 : kept s1 = b1) by (unfold kept; rewrite Hk1; reflexivity).
  destruct (callback_idle sample s1 b2 I1) as (s2 & C2 & I2 & Hs2 & Hw2 & Hk2);
    [lia | rewrite Hkept1; lia | ].
  rewrite Hkept1 in C2, Hk2.
  rewrite next_keep_fits in Hk2 by (rewrite len_app; lia).
  assert (Hkept2 : kept s2 = b1 ++ b2)
    by (unfold kept; rewrite Hk2; reflexivity).
  destruct (callback_idle sample s2 b3 I2) as (s3 & C3 & I3 & _);
    [lia | rewrite Hkept2, len_app; lia | ].
  rewrite Hkept2 in C3.
  destruct I0 as (_ & _ & P0 & _), I1 as (_ & _ & P1 & _),
           I2 as (_ & _ & P2 & _).
  exists s3. cbn [feed]. rewrite C1, C2, C3, P0, P1, P2, H1, H2, H3.
  reflexivity.
Qed.

(** C7 (amended): in scenario A the three 5 s blocks give exactly three
    windows, of 80,000, 160,000 and 240,000 samples: each holds every
    sample fed so far.  The first and second overlap by 80,000 samples,
    the second and third by 160,000. *)
Theorem scenario_A_three_windows (sample : Type) (listener : bool)
  (b1 b2 b3 : list sample) :
  len b1 = 80000 -> len b2 = 80000 -> len b3 = 80000 ->
  exists self' e1 e2 e3,
    feed sample (scenario_A sample listener) 0 [b1; b2; b3]
    = Some (self', 240000, [e1; e2; e3])
    /\ e_window e1 = b1
    /\ e_window e2 = b1 ++ b2
    /\ e_window e3 = (b1 ++ b2) ++ b3
    /\ len (e_window e1) = 80000
    /\ len (e_window e2) = 160000
    /\ len (e_window e3) = 240000
    /\ overlap e1 e2 = 80000
    /\ overlap e2 e3 = 160000.
Proof.
  intros H1 H2 H3.
  destruct (scenario_A_run sample listener b1 b2 b3 H1 H2 H3) as [s3 Hrun].
  exists s3. eexists. eexists. eexists.
  split; [exact Hrun | ].
  unfold overlap, e_start. cbn [e_end e_window].
  rewrite !len_app, H1, H2, H3.
  repeat split; reflexivity.
Qed.

Lemma scenario_A_three_windows_witness :
  exists self' e1 e2 e3,
    feed unit (scenario_A unit false) 0
      [five_seconds; five_seconds; five_seconds]
    = Some (self', 240000, [e1; e2; e3])
    /\ e_window e1 = five_seconds
    /\ e_window e2 = five_seconds ++ five_seconds
    /\ e_window e3 = (five_seconds ++ five_seconds) ++ five_seconds
    /\ len (e_window e1) = 80000
    /\ len (e_window e2) = 160000
    /\ len (e_window e3) = 240000
    /\ overlap e1 e2 = 80000
    /\ overlap e2 e3 = 160000.
Proof.
  apply (scenario_A_three_windows unit false
           five_seconds five_seconds five_seconds);
    exact len_five_seconds.
Defined.

(** C7 as stated fails: the third window does not have 160,000 samples
    and the first two windows do not overlap by 160,000 samples. *)
Lemma scenario_A_not_as_stated :
  ~ exists self' pos e1 e2 e3,
      feed unit (scenario_A unit false) 0
        [five_seconds; five_seconds; five_seconds]
      = Some (self', pos, [e1; e2; e3])
      /\ len (e_window e1) = 80000
      /\ len (e_window e2) = 160000
      /\ len (e_window e3) = 160000
      /\ overlap e1 e2 = 160000
      /\ overlap e2 e3 = 160000.
Proof.
  intros (s & pos & e1 & e2 & e3 & Hrun & _ & _ & H3 & _).
  destruct (scenario_A_run unit false five_seconds five_seconds five_seconds
              len_five_seconds len_five_seconds len_five_seconds)
    as [s3 Hreal].
  rewrite Hreal in Hrun.
  apply (f_equal (fun o : option (AudioRecorder unit * Z
                                  * list (emission unit)) =>
                    match o with
                    | Some (_, _, [_; _; e]) => len (e_window e)
                    | _ => 0
                    end)) in Hrun.
  cbv beta iota in Hrun. cbn [e_window] in Hrun.
  rewrite <- Hrun, !len_app, len_five_seconds in H3. lia.
Qed.

(** *** Any stream *)




(** *** The queue at [stop] *)

(** C9, failing input: ten step-sized blocks fill the queue with ten
    windows that nobody pops, a shorter block stays in the buffer, then
    [stop] is called.  The blocking [put] of [stop] finds no free slot: it
    drops nothing and does not return.  On the same queue the callback's
    push drops the oldest window and appends the new one. *)
Lemma stop_blocks_on_full_queue :
  exists self',
    feed _ small_recorder 0 (repeat step_block 10 ++ [[1]])
    = Some (self', 21, map (fun i => mkEmission i
                              (if i =? 2 then [0; 0] else [0; 0; 0; 0]))
                         [2; 4; 6; 8; 10; 12; 14; 16; 18; 20])
    /\ len (_audio_queue _ self') = QUEUE_MAXSIZE
    /\ _buffer _ self' = [[1]]
    /\ stop _ self' = None
    /\ exists self'' w,
         _audio_callback _ self' [5] = Returned self'' (Some w)
         /\ _audio_queue _ self'' = tl (_audio_queue _ self') ++ [w].
Proof.
  eexists. split; [vm_compute; reflexivity | ].
  split; [reflexivity | ]. split; [reflexivity | ].
  split; [reflexivity | ].
  eexists. eexists. split; vm_compute; reflexivity.
Qed.

End AudioFacts.

(* ================================================================== *)
(** ** The chunk splitter *)

Module ChunkingFacts.
Import Py PyFacts Config Backends Chunking Scenarios.

(** *** [sorted] *)

Lemma insert_sorted_perm (x : Z) (l : list Z) :
  Permutation (insert_sorted x l) (x :: l).
Proof.
  induction l as [| y l IH]; cbn [insert_sorted].
  - apply Permutation_refl.
  - destruct (x <=? y).
    + apply Permutation_refl.
    + eapply Permutation_trans; [apply perm_skip, IH | apply perm_swap].
Qed.

Lemma sorted_perm (l : list Z) : Permutation (sorted l) l.
Proof.
  induction l as [| x l IH]; cbn [sorted].
  - apply perm_nil.
  - eapply Permutation_trans; [apply insert_sorted_perm | apply perm_skip, IH].
Qed.

Lemma insert_sorted_Sorted (x : Z) (l : list Z) :
  Sorted Z.le l -> Sorted Z.le (insert_sorted x l).
Proof.
  induction l as [| y l IH]; intros Hs; cbn [insert_sorted].
  - repeat constructor.
  - destruct (Z.leb_spec x y) as [Hle | Hgt].
    + constructor; [exact Hs | constructor; exact Hle].
    + inversion Hs as [| ? ? Hs' Hhd]; subst.
      constructor; [apply IH, Hs' | ].
      destruct l as [| z l]; cbn [insert_sorted].
      * constructor. lia.
      * destruct (x <=? z); constructor; [lia | ].
        inversion Hhd; assumption.
Qed.

Lemma sorted_Sorted (l : list Z) : Sorted Z.le (sorted l).
Proof.
  induction l as [| x l IH]; cbn [sorted].
  - constructor.
  - apply insert_sorted_Sorted, IH.
Qed.

Section Facts.
Variable nonascii_digit : Py.char -> option Z.
Variable backend : Backend.

Local Notation "'parse'" := (_parse_boundaries nonascii_digit).

(** *** [_parse_boundaries] *)

Lemma parse_parts_filter (parts : list str) (min_idx max_idx : Z) :
  parse_parts nonascii_digit parts min_idx max_idx
  = filter (in_range min_idx max_idx) (parsed nonascii_digit parts).
Proof.
  induction parts as [| part rest IH];
    cbn [parse_parts parsed flat_map]; [reflexivity | ].
  fold (parsed nonascii_digit rest).
  destruct (Py.int nonascii_digit part) as [idx | ]; cbn [app filter].
  - unfold in_range at 1. rewrite IH.
    destruct ((min_idx <? idx) && (idx <? max_idx)); reflexivity.
  - exact IH.
Qed.

Lemma parse_in_range (result : str) (min_idx max_idx i : Z) :
  In i (parse result min_idx max_idx) -> min_idx < i < max_idx.
Proof.
  unfold _parse_boundaries.
  destruct (str_eqb (strip result) nashi
            || match strip result with [] => true | _ :: _ => false end);
    [intros [] | ].
  intros Hin.
  apply (Permutation_in _ (sorted_perm _)) in Hin.
  rewrite parse_parts_filter in Hin.
  apply filter_In in Hin. destruct Hin as [_ Hr].
  unfold in_range in Hr. apply andb_true_iff in Hr. lia.
Qed.

Lemma parse_example (min_idx max_idx : Z) :
  parse (lit "5,12,23") min_idx max_idx
  = filter (in_range min_idx max_idx) [5; 12; 23].
Proof.
  change (parse (lit "5,12,23") min_idx max_idx)
    with (sorted (parse_parts nonascii_digit
                    [lit "5"; lit "12"; lit "23"] min_idx max_idx)).
  rewrite parse_parts_filter.
  change (parsed nonascii_digit [lit "5"; lit "12"; lit "23"])
    with [5; 12; 23].
  cbn [filter].
  destruct (in_range min_idx max_idx 5), (in_range min_idx max_idx 12),
    (in_range min_idx max_idx 23); reflexivity.
Qed.

(** C5: [_parse_boundaries] gives no boundary for the reply nashi and for
    the empty reply; for [5,12,23] it gives those of 5, 12 and 23 that lie
    strictly between [min_idx] and [max_idx]; for any reply the result is
    sorted ascending, holds only indices strictly inside the interval, and
    holds exactly the comma-separated parts that [int] accepts and that are
    in range: a malformed or out-of-range part is dropped and nothing is
    raised. *)
Theorem parse_boundaries_spec :
  (forall min_idx max_idx, parse nashi min_idx max_idx = [])
  /\ (forall min_idx max_idx, parse [] min_idx max_idx = [])
  /\ (forall min_idx max_idx,
        parse (lit "5,12,23") min_idx max_idx
        = filter (in_range min_idx max_idx) [5; 12; 23])
  /\ (forall result min_idx max_idx,
        Sorted Z.le (parse result min_idx max_idx)
        /\ (forall i, In i (parse result min_idx max_idx) ->
                      min_idx < i < max_idx)
        /\ Permutation (parse result min_idx max_idx)
             (if str_eqb (strip result) nashi then []
              else filter (in_range min_idx max_idx)
                     (parsed nonascii_digit
                        (split_on 44%N (remove_char 32%N (strip result)))))).
Proof.
  split; [reflexivity | ]. split; [reflexivity | ].
  split; [exact parse_example | ].
  intros result min_idx max_idx.
  split; [ | split; [intros i; apply parse_in_range | ]].
  - unfold _parse_boundaries.
    destruct (str_eqb (strip result) nashi
              || match strip result with [] => true | _ :: _ => false end);
      [constructor | apply sorted_Sorted].
  - unfold _parse_boundaries.
    destruct (str_eqb (strip result) nashi) eqn:Hn; cbn [orb].
    + apply perm_nil.
    + destruct (strip result) as [| c r] eqn:Hs.
      * cbn. destruct (Py.int nonascii_digit []) eqn:Hi;
          [discriminate Hi | apply perm_nil].
      * rewrite <- parse_parts_filter. apply sorted_perm.
Qed.

(** *** The scanning window *)

Lemma scan_window_eq (transcripts : list TranscriptEntry) (window_start : Z)
  (log : list Prompt) (e : TranscriptEntry) (rest : list TranscriptEntry)
  (n : Z) :
  take_window (slice_from transcripts window_start) 0 = (e :: rest, n) ->
  CHUNK_THRESHOLD <= n ->
  scan_window nonascii_digit backend transcripts window_start log
  = (match backend (length log)
             (BOUNDARY_DETECTION_PROMPT
                (window_text window_start (e :: rest))) with
     | Text result =>
         match parse result window_start
                 (window_start + len (e :: rest)) with
         | first_boundary :: _ => Boundary first_boundary
         | [] => Boundary (mid_point window_start (e :: rest))
         end
     | Raises _ => Boundary (mid_point window_start (e :: rest))
     end,
     log ++ [BOUNDARY_DETECTION_PROMPT
               (window_text window_start (e :: rest))]).
Proof.
  intros Hw Hn. unfold scan_window, generate. rewrite Hw.
  destruct (Z.ltb_spec n CHUNK_THRESHOLD) as [Hlt | _]; [lia | ].
  destruct (backend (length log) _) as [result | msg]; [ | reflexivity].
  destruct (parse result window_start (window_start + len (e :: rest)));
    reflexivity.
Qed.

Lemma take_window_spec (rest : list TranscriptEntry) :
  forall acc w n,
    take_window rest acc = (w, n) ->
    n = acc + counted w /\ exists tl, rest = w ++ tl.
Proof.
  induction rest as [| e rest IH]; intros acc w n H; cbn [take_window] in H.
  - injection H as <- <-. cbn [counted]. split; [lia | exists []; reflexivity].
  - destruct (acc + len (entry_str e) >? BOUNDARY_DETECTION_MAX).
    + injection H as <- <-. cbn [counted].
      split; [lia | exists (e :: rest); reflexivity].
    + destruct (take_window rest (acc + len (entry_str e) + 1))
        as [w' n'] eqn:H'.
      injection H as <- <-.
      destruct (IH _ _ _ H') as [Hn [tl Htl]].
      cbn [counted]. split; [lia | exists tl; cbn [app]; congruence].
Qed.

Lemma scan_window_cases (transcripts : list TranscriptEntry)
  (window_start : Z) (log : list Prompt) :
  (scan_window nonascii_digit backend transcripts window_start log
   = (Break, log))
  \/ exists e rest n,
       take_window (slice_from transcripts window_start) 0 = (e :: rest, n)
       /\ CHUNK_THRESHOLD <= n.
Proof.
  unfold scan_window.
  destruct (take_window (slice_from transcripts window_start) 0)
    as [[| e rest] n] eqn:Hw; [left; reflexivity | ].
  destruct (Z.ltb_spec n CHUNK_THRESHOLD) as [Hlt | Hge];
    [left; reflexivity | ].
  right. exists e, rest, n. split; [reflexivity | exact Hge].
Qed.

Lemma scan_window_forced (transcripts : list TranscriptEntry)
  (window_start : Z) (log : list Prompt) (e : TranscriptEntry)
  (rest : list TranscriptEntry) (n : Z) :
  take_window (slice_from transcripts window_start) 0 = (e :: rest, n) ->
  CHUNK_THRESHOLD <= n ->
  match backend (length log)
          (BOUNDARY_DETECTION_PROMPT (window_text window_start (e :: rest)))
  with
  | Raises _ => True
  | Text result =>
      parse result window_start (window_start + len (e :: rest)) = []
  end ->
  scan_window nonascii_digit backend transcripts window_start log
  = (Boundary (window_start + len (e :: rest) / 2),
     log ++ [BOUNDARY_DETECTION_PROMPT
               (window_text window_start (e :: rest))]).
Proof.
  intros Hw Hn Hreply. rewrite (scan_window_eq _ _ _ _ _ _ Hw Hn).
  destruct (backend (length log) _) as [result | msg]; [ | reflexivity].
  rewrite Hreply. reflexivity.
Qed.

(** *** Termination of the scan *)

Lemma slice_from_incl {A} (l : list A) (i : Z) (x : A) :
  In x (slice_from l i) -> In x l.
Proof.
  intros H. destruct (slice_from_suffix l i) as [pre Hpre].
  rewrite Hpre. apply in_or_app. right. exact H.
Qed.

Lemma len_slice_from_le {A} (l : list A) (i : Z) :
  0 <= i -> len (slice_from l i) <= len l - i \/ len (slice_from l i) = 0.
Proof.
  intros Hi. rewrite slice_from_inside by assumption.
  unfold len. rewrite length_skipn. lia.
Qed.

Lemma scan_window_progress (transcripts : list TranscriptEntry)
  (window_start : Z) (log log' : list Prompt) (b : Z) :
  short_entries transcripts ->
  0 <= window_start ->
  scan_window nonascii_digit backend transcripts window_start log
  = (Boundary b, log') ->
  window_start < b <= len transcripts.
Proof.
  intros Hshort Hws Hscan.
  destruct (scan_window_cases transcripts window_start log)
    as [Hbreak | (e & rest & n & Hw & Hn)]; [congruence | ].
  rewrite (scan_window_eq _ _ _ _ _ _ Hw Hn) in Hscan.
  destruct (take_window_spec _ _ _ _ Hw) as [Hcount [tl Htl]].
  assert (Hlen : window_start + len (e :: rest) <= len transcripts).
  { assert (Hle : len (e :: rest) <= len (slice_from transcripts window_start))
      by (rewrite Htl, len_app; pose proof (len_nonneg tl); lia).
    destruct (len_slice_from_le transcripts window_start Hws) as [H | H];
      [lia | ].
    rewrite len_cons in Hle. pose proof (len_nonneg rest). lia. }
  assert (Htwo : 2 <= len (e :: rest)).
  { destruct rest as [| e' rest'].
    - exfalso. cbn [counted] in Hcount.
      assert (He : In e transcripts)
        by (apply (slice_from_incl _ window_start); rewrite Htl; left;
            reflexivity).
      unfold short_entries in Hshort. rewrite Forall_forall in Hshort.
      specialize (Hshort e He). lia.
    - rewrite !len_cons. pose proof (len_nonneg rest'). lia. }
  assert (Hmid : window_start < mid_point window_start (e :: rest)
                 <= len transcripts).
  { unfold mid_point.
    assert (1 <= len (e :: rest) / 2) by (apply Z.div_le_lower_bound; lia).
    assert (len (e :: rest) / 2 <= len (e :: rest))
      by (apply Z.div_le_upper_bound; lia).
    lia. }
  destruct (backend (length log) _) as [result | msg].
  - destruct (parse result window_start (window_start + len (e :: rest)))
      as [| first others] eqn:Hp.
    + injection Hscan as <- _. exact Hmid.
    + injection Hscan as <- _.
      assert (Hin : In first (parse result window_start
                                (window_start + len (e :: rest))))
        by (rewrite Hp; left; reflexivity).
      apply parse_in_range in Hin. lia.
  - injection Hscan as <- _. exact Hmid.
Qed.

Lemma detect_loop_terminates (transcripts : list TranscriptEntry) :
  short_entries transcripts ->
  forall (fuel : nat) (window_start : Z) (boundaries : list Z)
         (log : list Prompt),
    0 <= window_start ->
    Z.max 0 (len transcripts - window_start) < Z.of_nat fuel ->
    exists r, detect_loop nonascii_digit backend fuel transcripts
                window_start boundaries log = Some r.
Proof.
  intros Hshort. induction fuel as [| fuel IH];
    intros ws bs log Hws Hfuel.
  - exfalso. lia.
  - cbn [detect_loop].
    destruct (Z.ltb_spec ws (len transcripts)) as [Hlt | Hge];
      [ | eexists; reflexivity].
    destruct (scan_window nonascii_digit backend transcripts ws log)
      as [[| b] log'] eqn:Hscan; [eexists; reflexivity | ].
    pose proof (scan_window_progress _ _ _ _ _ Hshort Hws Hscan).
    apply IH; lia.
Qed.

(** *** The chunks *)

Lemma split_loop_concat (transcripts : list TranscriptEntry)
  (boundaries : list Z) :
  forall (start_idx : Z) (chunks : list Chunk),
    0 <= start_idx ->
    concat (map entries chunks) = firstn (Z.to_nat start_idx) transcripts ->
    0 <= snd (split_loop transcripts boundaries start_idx chunks)
    /\ concat (map entries
                 (fst (split_loop transcripts boundaries start_idx chunks)))
       = firstn (Z.to_nat
                   (snd (split_loop transcripts boundaries start_idx chunks)))
           transcripts.
Proof.
  induction boundaries as [| b rest IH]; intros start chunks Hs Hc;
    cbn [split_loop].
  - split; assumption.
  - destruct (Z.gtb_spec b start) as [Hgt | Hle].
    + apply IH; [lia | ].
      rewrite map_app, concat_app. cbn [map concat entries].
      rewrite app_nil_r, Hc. apply firstn_slice_app. lia.
    + apply IH; assumption.
Qed.

Lemma split_concat (fuel : nat) (transcripts : list TranscriptEntry)
  (log log' : list Prompt) (chunks : list Chunk) :
  split nonascii_digit backend fuel transcripts log = Some (chunks, log') ->
  concat (map entries chunks) = transcripts.
Proof.
  unfold split. destruct transcripts as [| e0 ts0] eqn:Hts.
  - intros H. injection H as <- _. reflexivity.
  - rewrite <- Hts. clear Hts e0 ts0.
    destruct (len (join newline (map entry_str transcripts))
              <=? CHUNK_THRESHOLD).
    + intros H. injection H as <- _. cbn. apply app_nil_r.
    + destruct (_detect_boundaries nonascii_digit backend fuel transcripts log)
        as [[boundaries log1] | ]; [ | discriminate].
      pose proof (split_loop_concat transcripts boundaries 0 []
                    (Z.le_refl 0) eq_refl) as [Hs Hc].
      destruct (split_loop transcripts boundaries 0 []) as [cs start].
      cbn [fst snd] in Hs, Hc.
      intros H. injection H as <- _.
      assert (Hall : concat
                       (map entries
                          (if start <? len transcripts
                           then cs ++ [mkChunk (slice_from transcripts start)
                                         start (len transcripts - 1)]
                           else cs)) = transcripts).
      { destruct (Z.ltb_spec start (len transcripts)) as [Hlt | Hge].
        - rewrite map_app, concat_app. cbn [map concat entries].
          rewrite app_nil_r, Hc, slice_from_inside by assumption.
          apply firstn_skipn.
        - rewrite Hc. apply firstn_all2. unfold len in Hge. lia. }
      destruct (if start <? len transcripts
                then cs ++ [mkChunk (slice_from transcripts start)
                              start (len transcripts - 1)]
                else cs) as [| c cs'] eqn:Hcs.
      * cbn in Hall. cbn. rewrite app_nil_r. reflexivity.
      * exact Hall.
Qed.

Lemma split_returns (transcripts : list TranscriptEntry) (log : list Prompt) :
  short_entries transcripts ->
  exists chunks log',
    split nonascii_digit backend (S (length transcripts)) transcripts log
    = Some (chunks, log').
Proof.
  intros Hshort. unfold split. destruct transcripts as [| e0 ts0] eqn:Hts.
  - eexists. eexists. reflexivity.
  - rewrite <- Hts in *. clear Hts e0 ts0.
    destruct (len (join newline (map entry_str transcripts))
              <=? CHUNK_THRESHOLD); [eexists; eexists; reflexivity | ].
    destruct (detect_loop_terminates transcripts Hshort
                (S (length transcripts)) 0 [] log) as [[bs log1] Hd];
      [lia | unfold len; lia | ].
    unfold _detect_boundaries. rewrite Hd.
    destruct (split_loop transcripts bs 0 []) as [cs start].
    eexists. eexists. reflexivity.
Qed.

Lemma split_small (fuel : nat) (transcripts : list TranscriptEntry)
  (log : list Prompt) :
  transcripts <> [] ->
  len (join newline (map entry_str transcripts)) <= CHUNK_THRESHOLD ->
  split nonascii_digit backend fuel transcripts log
  = Some ([whole transcripts], log).
Proof.
  intros Hne Hlen. unfold split.
  destruct transcripts as [| e0 ts0] eqn:Hts; [congruence | ].
  rewrite <- Hts in *.
  destruct (Z.leb_spec (len (join newline (map entry_str transcripts)))
              CHUNK_THRESHOLD); [reflexivity | lia].
Qed.

End Facts.

(** *** Concrete transcripts and backends *)

(** C10: [split] on the empty transcript returns no chunk at all and sends
    nothing to the backend. *)
Theorem split_empty (nonascii_digit : Py.char -> option Z)
  (backend : Backend) (fuel : nat) (log : list Prompt) :
  split nonascii_digit backend fuel [] log = Some ([], log).
Proof. reflexivity. Qed.

(** C4 (amended): whenever [split] returns, the entries of its chunks, put
    end to end, are the transcript; it returns (within
    [len transcripts + 1] turns of the scan) when every entry renders to
    fewer than [CHUNK_THRESHOLD - 1] characters; and for a non-empty
    transcript whose rendered text has at most [CHUNK_THRESHOLD] characters
    the result is the single chunk of the whole transcript, with nothing
    sent to the backend. *)
Theorem split_partitions (nonascii_digit : Py.char -> option Z)
  (backend : Backend) (transcripts : list TranscriptEntry)
  (log : list Prompt) :
  (forall fuel chunks log',
      split nonascii_digit backend fuel transcripts log = Some (chunks, log')
      -> concat (map entries chunks) = transcripts)
  /\ (short_entries transcripts ->
      exists chunks log',
        split nonascii_digit backend (S (length transcripts)) transcripts log
        = Some (chunks, log')
        /\ concat (map entries chunks) = transcripts)
  /\ (transcripts <> [] ->
      len (join newline (map entry_str transcripts)) <= CHUNK_THRESHOLD ->
      forall fuel,
        split nonascii_digit backend fuel transcripts log
        = Some ([whole transcripts], log)).
Proof.
  split; [ | split].
  - intros fuel chunks log' H.
    exact (split_concat nonascii_digit backend fuel transcripts log log'
             chunks H).
  - intros Hshort.
    destruct (split_returns nonascii_digit backend transcripts log Hshort)
      as (chunks & log' & H).
    exists chunks, log'. split; [exact H | ].
    exact (split_concat nonascii_digit backend _ transcripts log log'
             chunks H).
  - intros Hne Hlen fuel.
    exact (split_small nonascii_digit backend fuel transcripts log Hne Hlen).
Qed.

Lemma split_partitions_witness :
  (exists chunks log',
      split no_digits always_fails (S (length two_entries)) two_entries []
      = Some (chunks, log')
      /\ concat (map entries chunks) = two_entries)
  /\ split no_digits always_fails 1 two_entries []
     = Some ([whole two_entries], []).
Proof.
  split.
  - apply (proj1 (proj2 (split_partitions no_digits always_fails
                           two_entries []))).
    repeat constructor.
  - apply (proj2 (proj2 (split_partitions no_digits always_fails
                           two_entries []))).
    + discriminate.
    + vm_compute. discriminate.
Defined.

(** C4 as stated fails on the empty transcript: its rendered text has no
    character, which is within the threshold, and [split] returns no chunk,
    not a single one. *)
Lemma split_empty_not_single :
  len (join newline (map entry_str [])) <= CHUNK_THRESHOLD
  /\ split no_digits replies_nashi 1 [] [] = Some ([], [])
  /\ ~ exists c log', split no_digits replies_nashi 1 [] []
                      = Some ([c], log').
Proof.
  split; [vm_compute; discriminate | ].
  split; [reflexivity | ].
  intros (c & log' & H). discriminate H.
Qed.

(** *** A window of one long entry

    When the scanning window holds a single entry, no index lies strictly
    inside it and the midpoint is its start: the scan records that index
    again and again, and [split] does not return. *)

Lemma long_entry_window :
  take_window (slice_from [long_entry] 0) 0 = ([long_entry], 20002).
Proof. vm_cast_no_check (@eq_refl _ ([long_entry], 20002)). Qed.

Lemma long_entry_scan (nonascii_digit : Py.char -> option Z)
  (backend : Backend) (log : list Prompt) :
  scan_window nonascii_digit backend [long_entry] 0 log
  = (Boundary 0,
     log ++ [BOUNDARY_DETECTION_PROMPT (window_text 0 [long_entry])]).
Proof.
  rewrite (scan_window_eq nonascii_digit backend [long_entry] 0 log
             long_entry [] 20002 long_entry_window);
    [ | unfold CHUNK_THRESHOLD; lia].
  destruct (backend (length log) _) as [result | msg]; [ | reflexivity].
  destruct (_parse_boundaries nonascii_digit result 0 (0 + len [long_entry]))
    as [| first others] eqn:Hp; [reflexivity | ].
  exfalso.
  assert (Hin : In first (_parse_boundaries nonascii_digit result 0
                            (0 + len [long_entry])))
    by (rewrite Hp; left; reflexivity).
  apply parse_in_range in Hin. cbn in Hin. lia.
Qed.

Lemma long_entry_loop (nonascii_digit : Py.char -> option Z)
  (backend : Backend) (fuel : nat) :
  forall (boundaries : list Z) (log : list Prompt),
    detect_loop nonascii_digit backend fuel [long_entry] 0 boundaries log
    = None.
Proof.
  induction fuel as [| fuel IH]; intros bs log; [reflexivity | ].
  cbn [detect_loop].
  change (0 <? len [long_entry]) with true. cbv iota.
  rewrite long_entry_scan. apply IH.
Qed.

Lemma split_diverges_on_long_entry (nonascii_digit : Py.char -> option Z)
  (backend : Backend) (fuel : nat) (log : list Prompt) :
  split nonascii_digit backend fuel [long_entry] log = None.
Proof.
  unfold split.
  replace (len (join newline (map entry_str [long_entry])) <=? CHUNK_THRESHOLD)
    with false by (vm_cast_no_check (@eq_refl bool false)).
  unfold _detect_boundaries. rewrite long_entry_loop. reflexivity.
Qed.

(** C6: when the scanning window is large enough to be submitted and the
    backend raises, or its reply parses to no boundary, the boundary
    recorded is [window_start + len window_entries // 2]; with the 25
    entries of scenario B and the reply nashi the scan records the single
    boundary 12, and [split] cuts the transcript there. *)
Theorem forced_split_at_midpoint :
  (forall (nonascii_digit : Py.char -> option Z) (backend : Backend)
          (transcripts : list TranscriptEntry) (window_start : Z)
          (log : list Prompt) (e : TranscriptEntry)
          (rest : list TranscriptEntry) (n : Z),
      take_window (slice_from transcripts window_start) 0 = (e :: rest, n) ->
      CHUNK_THRESHOLD <= n ->
      match backend (length log)
              (BOUNDARY_DETECTION_PROMPT
                 (window_text window_start (e :: rest)))
      with
      | Raises _ => True
      | Text result =>
          _parse_boundaries nonascii_digit result window_start
            (window_start + len (e :: rest)) = []
      end ->
      scan_window nonascii_digit backend transcripts window_start log
      = (Boundary (window_start + len (e :: rest) / 2),
         log ++ [BOUNDARY_DETECTION_PROMPT
                   (window_text window_start (e :: rest))]))
  /\ (forall (nonascii_digit : Py.char -> option Z) (fuel : nat),
        _detect_boundaries nonascii_digit replies_nashi (S (S fuel))
          scenario_B []
        = Some ([12], [BOUNDARY_DETECTION_PROMPT (window_text 0 scenario_B)])
        /\ split nonascii_digit replies_nashi (S (S fuel)) scenario_B []
           = Some ([mkChunk (firstn 12 scenario_B) 0 11;
                    mkChunk (skipn 12 scenario_B) 12 24],
                   [BOUNDARY_DETECTION_PROMPT (window_text 0 scenario_B)])).
Proof.
  split.
  - intros nd backend transcripts ws log e rest n Hw Hn Hreply.
    exact (scan_window_forced nd backend transcripts ws log e rest n
             Hw Hn Hreply).
  - intros nd fuel.
    split;
      match goal with
      | |- _ = ?r => vm_cast_no_check (@eq_refl _ r)
      end.
Qed.

Lemma forced_split_at_midpoint_witness :
  scan_window no_digits always_fails scenario_B 0 []
  = (Boundary (0 + len scenario_B / 2),
     [] ++ [BOUNDARY_DETECTION_PROMPT (window_text 0 scenario_B)]).
Proof.
  apply (proj1 forced_split_at_midpoint no_digits always_fails scenario_B 0 []
           (hd (mkEntry (mkDatetime 0 0 0 0) [] 0) scenario_B)
           (tl scenario_B) 25025).
  - vm_compute. reflexivity.
  - vm_compute. discriminate.
  - exact I.
Defined.

End ChunkingFacts.

(* ================================================================== *)
(** ** The minutes updater *)

Module MinutesFacts.
Import Py PyFacts Config Backends Minutes Sessions Scenarios.

Section Facts.
Variable render : Template -> Context -> Py.str -> Py.str.
Variable env : Env.

Local Notation "'upd'" := (update render env).

Lemma counting_back (self : MinutesUpdater) :
  counting self (update_count self + 1 - 1) = self.
Proof.
  unfold counting. rewrite Z.add_simpl_r. destruct self; reflexivity.
Qed.

Ltac run_update :=
  unfold update, try_except, bind, get_self, set_update_count, ret,
    generate_full, generate_incremental, backend_generate, generate,
    commit, set_current_minutes, set_last_update_index, _save_version,
    full_prompt, incremental_prompt, committed, asked, counting,
    get_new_transcripts in *;
  cbn -[len full_transcript_text join Z.add Z.sub Z.eqb slice_from] in *.

Ltac reply_is H r :=
  cbn -[len full_transcript_text join Z.add Z.sub Z.eqb slice_from];
  match goal with
  | |- context [backend ?e ?n ?p] =>
      replace (backend e n p) with r by (symmetry; exact H)
  end;
  cbn -[len full_transcript_text join Z.add Z.sub Z.eqb slice_from].

(** Nothing new: no call, nothing changes. *)
Lemma update_noop (self : MinutesUpdater) (w : World)
  (e : TranscriptEntry) (rest : list TranscriptEntry) (full : bool)
  (now : datetime) :
  planned render self (e :: rest) full now = None ->
  upd (e :: rest) full now (self, w)
  = (Ok (mkResult true (current_minutes self) 0 (len (e :: rest))
           (update_count self) None), (self, w)).
Proof.
  unfold planned. intros Hplan.
  destruct self as [tpl st vh sm lui cnt cur]. run_update.
  destruct (full || (cnt + 1 =? 1)); [discriminate | ].
  destruct (slice_from (e :: rest) lui) as [| e' new]; [ | discriminate].
  cbn -[len Z.add Z.sub]. rewrite Z.add_simpl_r. reflexivity.
Qed.

(** The call raises: the counter is rolled back, nothing else changes. *)
Lemma update_raises (self : MinutesUpdater) (w : World)
  (e : TranscriptEntry) (rest : list TranscriptEntry) (full : bool)
  (now : datetime) (p : Prompt) (n : Z) (msg : Py.str) :
  planned render self (e :: rest) full now = Some (p, n) ->
  backend env (length (calls w)) p = Raises msg ->
  upd (e :: rest) full now (self, w)
  = (Ok (mkResult false (current_minutes self) 0 (len (e :: rest))
           (update_count self) (Some msg)), (self, asked w p)).
Proof.
  unfold planned. intros Hplan Hreply.
  destruct self as [tpl st vh sm lui cnt cur]. run_update.
  destruct (full || (cnt + 1 =? 1)).
  - injection Hplan as <- <-. reply_is Hreply (Raises msg).
    rewrite Z.add_simpl_r. reflexivity.
  - destruct (slice_from (e :: rest) lui) as [| e' new]; [discriminate | ].
    injection Hplan as <- <-. reply_is Hreply (Raises msg).
    rewrite Z.add_simpl_r. reflexivity.
Qed.

(** The call returns a document. *)
Lemma update_text (self : MinutesUpdater) (w : World)
  (e : TranscriptEntry) (rest : list TranscriptEntry) (full : bool)
  (now : datetime) (p : Prompt) (n : Z) (doc : Py.str) :
  planned render self (e :: rest) full now = Some (p, n) ->
  backend env (length (calls w)) p = Text doc ->
  upd (e :: rest) full now (self, w)
  = if version_history self && negb (simple_mode self) then
      match write_error env (write_attempts w) with
      | Some msg =>
          (Ok (mkResult false doc 0 (len (e :: rest)) (update_count self)
                 (Some msg)),
           (committed self doc (len (e :: rest)) (update_count self),
            mkWorld (calls w ++ [p]) (history_files w)
              (S (write_attempts w))))
      | None =>
          (Ok (mkResult true doc n (len (e :: rest)) (update_count self + 1)
                 None),
           (committed self doc (len (e :: rest)) (update_count self + 1),
            mkWorld (calls w ++ [p])
              ((update_count self + 1, doc) :: history_files w)
              (S (write_attempts w))))
      end
    else
      (Ok (mkResult true doc n (len (e :: rest)) (update_count self + 1)
             None),
       (committed self doc (len (e :: rest)) (update_count self + 1),
        asked w p)).
Proof.
  unfold planned. intros Hplan Hreply.
  destruct self as [tpl st vh sm lui cnt cur]. run_update.
  destruct (full || (cnt + 1 =? 1)).
  - injection Hplan as <- <-. reply_is Hreply (Text doc).
    destruct (vh && negb sm); run_update; [ | reflexivity].
    destruct (write_error env (write_attempts w)) as [msg | ]; run_update;
      [rewrite Z.add_simpl_r | ]; reflexivity.
  - destruct (slice_from (e :: rest) lui) as [| e' new]; [discriminate | ].
    injection Hplan as <- <-. reply_is Hreply (Text doc).
    destruct (vh && negb sm); run_update; [ | reflexivity].
    destruct (write_error env (write_attempts w)) as [msg | ]; run_update;
      [rewrite Z.add_simpl_r | ]; reflexivity.
Qed.

Lemma snoc_inj {A} (l : list A) (x y : A) : l ++ [x] = l ++ [y] -> x = y.
Proof. intros H. apply app_inv_head in H. congruence. Qed.

Lemma snoc_neq {A} (l : list A) (x : A) : l <> l ++ [x].
Proof.
  intros H. apply (f_equal (@length A)) in H.
  rewrite length_app in H. cbn in H. lia.
Qed.

(** What an update that sent a prompt did to the log. *)
Lemma update_text_calls (self : MinutesUpdater) (w : World)
  (e : TranscriptEntry) (rest : list TranscriptEntry) (full : bool)
  (now : datetime) (p : Prompt) (n : Z) (doc : Py.str) :
  planned render self (e :: rest) full now = Some (p, n) ->
  backend env (length (calls w)) p = Text doc ->
  calls (snd (snd (upd (e :: rest) full now (self, w)))) = calls w ++ [p].
Proof.
  intros Hplan Hreply. rewrite (update_text _ _ _ _ _ _ _ _ _ Hplan Hreply).
  destruct (version_history self && negb (simple_mode self));
    [destruct (write_error env (write_attempts w)) | ]; reflexivity.
Qed.

(** C1: on a non-empty snapshot, when the call [update] makes to the
    backend raises, [update] returns a result with [success = false] that
    carries the message, the unchanged document and the unchanged counter;
    the object is exactly as before the call ([current_minutes],
    [last_update_index] and [update_count] included) and no version file is
    written. *)
Theorem failing_generation_leaves_state (self self' : MinutesUpdater)
  (w w' : World) (transcripts : list TranscriptEntry) (full : bool)
  (now : datetime) (r : outcome UpdateResult) (p : Prompt) (msg : Py.str) :
  transcripts <> [] ->
  upd transcripts full now (self, w) = (r, (self', w')) ->
  calls w' = calls w ++ [p] ->
  backend env (length (calls w)) p = Raises msg ->
  r = Ok (mkResult false (current_minutes self) 0 (len transcripts)
            (update_count self) (Some msg))
  /\ self' = self
  /\ current_minutes self' = current_minutes self
  /\ last_update_index self' = last_update_index self
  /\ update_count self' = update_count self
  /\ history_files w' = history_files w.
Proof.
  intros Hne Hupd Hcalls Hraise.
  destruct transcripts as [| e rest]; [congruence | ].
  destruct (planned render self (e :: rest) full now) as [[p0 n] | ] eqn:Hplan.
  - destruct (backend env (length (calls w)) p0) as [doc | msg0] eqn:Hreply.
    + pose proof (update_text_calls _ _ _ _ _ _ _ _ _ Hplan Hreply) as Hc.
      rewrite Hupd in Hc. cbn [snd] in Hc. rewrite Hcalls in Hc.
      apply snoc_inj in Hc. subst p0. congruence.
    + rewrite (update_raises _ _ _ _ _ _ _ _ _ Hplan Hreply) in Hupd.
      injection Hupd as <- <- <-. cbn [asked calls] in Hcalls.
      apply snoc_inj in Hcalls. subst p0.
      assert (msg0 = msg) by congruence. subst msg0.
      repeat split.
  - rewrite (update_noop _ _ _ _ _ _ Hplan) in Hupd.
    injection Hupd as _ _ <-. exfalso. exact (snoc_neq _ _ Hcalls).
Qed.

(** The no-op branch: on a non-empty snapshot with no entry after
    [last_update_index], in a session whose [update_count] is not 0,
    [update] with [full = false] returns [success = true],
    [new_entries_count = 0] and the current document, sends nothing to the
    backend and leaves the object as it was. *)
Lemma update_without_new_entries (self : MinutesUpdater) (w : World)
  (transcripts : list TranscriptEntry) (now : datetime) :
  transcripts <> [] ->
  get_new_transcripts self transcripts = [] ->
  update_count self <> 0 ->
  upd transcripts false now (self, w)
  = (Ok (mkResult true (current_minutes self) 0 (len transcripts)
           (update_count self) None), (self, w)).
Proof.
  intros Hne Hnew Hcount.
  destruct transcripts as [| e rest]; [congruence | ].
  apply update_noop. unfold planned. rewrite Hnew.
  destruct (Z.eqb_spec (update_count self + 1) 1); [lia | reflexivity].
Qed.

(** In a consistent session the no-op holds as it is expected: with no
    entry after [last_update_index], [update] with [full = false] sends
    nothing, succeeds with no new entry and changes nothing. *)
Lemma noop_in_consistent_session (self : MinutesUpdater) (w : World)
  (transcripts : list TranscriptEntry) (now : datetime) :
  consistent self ->
  transcripts <> [] ->
  get_new_transcripts self transcripts = [] ->
  upd transcripts false now (self, w)
  = (Ok (mkResult true (current_minutes self) 0 (len transcripts)
           (update_count self) None), (self, w)).
Proof.
  intros [_ Hc] Hne Hnew.
  apply update_without_new_entries; [exact Hne | exact Hnew | ].
  intros Hzero. apply Hne.
  unfold get_new_transcripts in Hnew.
  rewrite (Hc Hzero), slice_from_0 in Hnew. exact Hnew.
Qed.

(** A new session is consistent. *)
Lemma init_consistent (t : Template) (start : datetime)
  (history simple : bool) :
  consistent (Minutes.init t start history simple).
Proof. split; [cbn; lia | reflexivity]. Qed.

(** [update] keeps a session consistent, whatever the backend does, as
    long as the version file, when one is due, can be written. *)
Lemma update_keeps_consistent (self self' : MinutesUpdater) (w w' : World)
  (transcripts : list TranscriptEntry) (full : bool) (now : datetime)
  (r : outcome UpdateResult) :
  consistent self ->
  version_history self && negb (simple_mode self) = false
  \/ write_error env (write_attempts w) = None ->
  upd transcripts full now (self, w) = (r, (self', w')) ->
  consistent self'.
Proof.
  intros Hc Hdisk Hupd.
  destruct transcripts as [| e rest].
  - cbn in Hupd. injection Hupd as _ <- _. exact Hc.
  - destruct (planned render self (e :: rest) full now) as [[p n] | ]
      eqn:Hplan.
    + destruct (backend env (length (calls w)) p) as [doc | msg] eqn:Hreply.
      * rewrite (update_text _ _ _ _ _ _ _ _ _ Hplan Hreply) in Hupd.
        destruct Hc as [Hc _].
        destruct (version_history self && negb (simple_mode self));
          [destruct (write_error env (write_attempts w)) as [msg | ] | ];
          try (destruct Hdisk as [H | H]; discriminate H);
          injection Hupd as _ <- _;
          (split; cbn [committed update_count]; lia).
      * rewrite (update_raises _ _ _ _ _ _ _ _ _ Hplan Hreply) in Hupd.
        injection Hupd as _ <- _. exact Hc.
    + rewrite (update_noop _ _ _ _ _ _ Hplan) in Hupd.
      injection Hupd as _ <- _. exact Hc.
Qed.

(** C2: the defect.  When the first update of a session has generated the
    document and the write of the version file raises, [update] reports a
    failure and undoes the increment of [update_count] only: the document
    and [last_update_index] stay committed.  The session then has no entry
    after [last_update_index] and [update_count] 0, and [update] with
    [full = false] on the same snapshot is no no-op: it sends the
    full-generation prompt again, and when it succeeds it reports every
    entry as new and leaves [update_count] at 1. *)
Theorem failed_save_breaks_noop (self : MinutesUpdater) (w : World)
  (transcripts : list TranscriptEntry) (full : bool) (now now' : datetime)
  (doc msg : Py.str) :
  transcripts <> [] ->
  update_count self = 0 ->
  version_history self && negb (simple_mode self) = true ->
  backend env (length (calls w)) (full_prompt render self transcripts now)
  = Text doc ->
  write_error env (write_attempts w) = Some msg ->
  exists self1 w1,
    upd transcripts full now (self, w)
    = (Ok (mkResult false doc 0 (len transcripts) 0 (Some msg)),
       (self1, w1))
    /\ update_count self1 = 0
    /\ current_minutes self1 = doc
    /\ last_update_index self1 = len transcripts
    /\ get_new_transcripts self1 transcripts = []
    /\ exists r2 self2 w2,
         upd transcripts false now' (self1, w1) = (Ok r2, (self2, w2))
         /\ calls w2
            = calls w1 ++ [full_prompt render self1 transcripts now']
         /\ w2 <> w1
         /\ (success r2 = true ->
             new_entries_count r2 = len transcripts
             /\ update_count self2 = 1).
Proof.
  intros Hne Hzero Hvh Hreply Hwrite.
  destruct transcripts as [| e rest]; [congruence | ].
  assert (Hplan : forall s f t,
             update_count s = 0 ->
             planned render s (e :: rest) f t
             = Some (full_prompt render s (e :: rest) t, len (e :: rest))).
  { intros s f t Hs. unfold planned. rewrite Hs. cbn [Z.add Z.eqb Pos.eqb].
    rewrite orb_true_r. reflexivity. }
  rewrite (update_text _ _ _ _ _ _ _ _ _ (Hplan self full now Hzero) Hreply).
  rewrite Hvh, Hwrite, Hzero.
  set (self1 := committed self doc (len (e :: rest)) 0).
  set (w1 := mkWorld _ _ _).
  exists self1, w1.
  split; [reflexivity | ]. split; [reflexivity | ].
  split; [reflexivity | ]. split; [reflexivity | ].
  split.
  { unfold get_new_transcripts. cbn [self1 committed last_update_index].
    rewrite slice_from_inside by apply len_nonneg.
    apply skipn_all2. unfold len. lia. }
  assert (Hneq : forall w2 q, calls w2 = calls w1 ++ [q] -> w2 <> w1).
  { intros w2 q Hc Heq. rewrite Heq in Hc. exact (snoc_neq _ _ Hc). }
  assert (Hvh1 : version_history self1 && negb (simple_mode self1) = true)
    by exact Hvh.
  destruct (backend env (length (calls w1))
              (full_prompt render self1 (e :: rest) now'))
    as [doc2 | msg2] eqn:Hreply2.
  - rewrite (update_text _ _ _ _ _ _ _ _ _
               (Hplan self1 false now' eq_refl) Hreply2).
    rewrite Hvh1.
    destruct (write_error env (write_attempts w1)) as [msg2 | ].
    + eexists. eexists. eexists. split; [reflexivity | ].
      split; [reflexivity | ].
      split; [eapply Hneq; reflexivity | ].
      cbn [success]. discriminate.
    + eexists. eexists. eexists. split; [reflexivity | ].
      split; [reflexivity | ].
      split; [eapply Hneq; reflexivity | ].
      intros _. split; reflexivity.
  - rewrite (update_raises _ _ _ _ _ _ _ _ _
               (Hplan self1 false now' eq_refl) Hreply2).
    eexists. eexists. eexists. split; [reflexivity | ].
    split; [reflexivity | ].
    split; [eapply Hneq; reflexivity | ].
    cbn [success]. discriminate.
Qed.


End Facts.

(** *** Concrete sessions *)

Lemma failing_generation_leaves_state_witness :
  fst failed_run
  = Ok (mkResult false (current_minutes fresh_session) 0 (len [first_entry])
          (update_count fresh_session) (Some (lit "boom")))
  /\ fst (snd failed_run) = fresh_session
  /\ current_minutes (fst (snd failed_run)) = current_minutes fresh_session
  /\ last_update_index (fst (snd failed_run))
     = last_update_index fresh_session
  /\ update_count (fst (snd failed_run)) = update_count fresh_session
  /\ history_files (snd (snd failed_run)) = history_files empty_world.
Proof.
  apply (failing_generation_leaves_state plain_render failing_env
           fresh_session (fst (snd failed_run)) empty_world
           (snd (snd failed_run)) [first_entry] false noon (fst failed_run)
           first_prompt (lit "boom")).
  - discriminate.
  - reflexivity.
  - reflexivity.
  - reflexivity.
Defined.

(** The session of the defect: a new session with the version history
    on, a backend that answers and a disk whose first write fails. *)
Lemma failed_save_breaks_noop_witness :
  exists self1 w1,
    update plain_render first_write_fails [first_entry] false noon
      (fresh_session, empty_world)
    = (Ok (mkResult false (lit "doc") 0 (len [first_entry]) 0
             (Some (lit "disk full"))),
       (self1, w1))
    /\ update_count self1 = 0
    /\ current_minutes self1 = lit "doc"
    /\ last_update_index self1 = len [first_entry]
    /\ get_new_transcripts self1 [first_entry] = []
    /\ exists r2 self2 w2,
         update plain_render first_write_fails [first_entry] false noon
           (self1, w1)
         = (Ok r2, (self2, w2))
         /\ calls w2
            = calls w1 ++ [full_prompt plain_render self1 [first_entry] noon]
         /\ w2 <> w1
         /\ (success r2 = true ->
             new_entries_count r2 = len [first_entry]
             /\ update_count self2 = 1).
Proof.
  apply (failed_save_breaks_noop plain_render first_write_fails
           fresh_session empty_world [first_entry] false noon noon
           (lit "doc") (lit "disk full")).
  - discriminate.
  - reflexivity.
  - reflexivity.
  - reflexivity.
  - reflexivity.
Defined.

(** The second update of that session does succeed: it calls the backend
    again and reports the one entry as new. *)
Lemma second_update_after_failed_save :
  get_new_transcripts (fst after_failed_save) [first_entry] = []
  /\ exists st,
       update plain_render first_write_fails [first_entry] false noon
         after_failed_save
       = (Ok (mkResult true (lit "doc") 1 1 1 None), st)
       /\ calls (snd st) = [first_prompt; first_prompt].
Proof.
  split; [reflexivity | ].
  eexists. split; reflexivity.
Qed.



End MinutesFacts.

(* ================================================================== *)
(** ** More on the recorder: the queue, pausing and stopping *)

Module AudioMore.
Import Py PyFacts Audio Queueing AudioFacts.

Lemma keep_last_all {A} (n : nat) (l : list A) :
  (length l <= n)%nat -> keep_last n l = l.
Proof.
  intros H. unfold keep_last.
  replace (length l - n)%nat with 0%nat by lia. reflexivity.
Qed.

Lemma keep_last_app {A} (n : nat) (l m : list A) :
  keep_last n (keep_last n l ++ m) = keep_last n (l ++ m).
Proof.
  unfold keep_last. rewrite !length_app, length_skipn.
  destruct (Nat.le_gt_cases (length l) n) as [Hle | Hgt].
  - replace (length l - n)%nat with 0%nat by lia. cbn [skipn].
    rewrite Nat.sub_0_r. reflexivity.
  - replace (length l - (length l - n) + length m - n)%nat
      with (length m) by lia.
    rewrite skipn_app, length_skipn.
    replace (length m - (length l - (length l - n)))%nat
      with (length m - n)%nat by lia.
    rewrite (skipn_app (length l + length m - n)).
    replace (length l + length m - n - length l)%nat
      with (length m - n)%nat by lia.
    f_equal.
    destruct (Nat.le_gt_cases (length m) n) as [Hm | Hm].
    + rewrite skipn_skipn. f_equal. lia.
    + rewrite !skipn_all2; [reflexivity | lia | rewrite length_skipn; lia].
Qed.

Lemma keep_last_snoc {A} (q : list A) (w : A) :
  len q <= QUEUE_MAXSIZE ->
  (if len q <? QUEUE_MAXSIZE then q else tl q) ++ [w]
  = keep_last 10 (q ++ [w]).
Proof.
  unfold QUEUE_MAXSIZE, len, keep_last. intros Hq.
  rewrite length_app. cbn [length].
  destruct (Z.ltb_spec (Z.of_nat (length q)) 10) as [Hlt | Hge].
  - replace (length q + 1 - 10)%nat with 0%nat by lia. reflexivity.
  - replace (length q + 1 - 10)%nat with 1%nat by lia.
    destruct q as [| x q]; [cbn in Hge; lia | reflexivity].
Qed.

Section More.
Variable sample : Type.

(** X1.  The callback's push.  With at most ten windows queued, the
    callback returns (the second [put_nowait] never raises), the queue
    still holds at most ten windows, and a window that is emitted goes to
    the end of the queue, after the oldest window has been dropped when the
    queue was full; without an emission the queue is untouched. *)
Theorem callback_push (self : AudioRecorder sample) (b : list sample) :
  len (_audio_queue _ self) <= QUEUE_MAXSIZE ->
  exists self' out,
    _audio_callback _ self b = Returned self' out
    /\ len (_audio_queue _ self') <= QUEUE_MAXSIZE
    /\ step_samples _ self' = step_samples _ self
    /\ window_samples _ self' = window_samples _ self
    /\ _is_paused _ self' = _is_paused _ self
    /\ match out with
       | None => _audio_queue _ self' = _audio_queue _ self
       | Some w =>
           _audio_queue _ self'
           = (if len (_audio_queue _ self) <? QUEUE_MAXSIZE
              then _audio_queue _ self
              else tl (_audio_queue _ self)) ++ [w]
       end.
Proof.
  intros Hq.
  destruct (_is_paused _ self) eqn:Hp.
  - exists self, None. unfold _audio_callback. rewrite Hp.
    repeat split; try assumption; reflexivity.
  - destruct (Z.le_gt_cases (step_samples _ self)
                (_buffer_samples _ self + len b)) as [Hge | Hlt].
    + destruct (callback_emits sample self b Hp Hge Hq)
        as (q' & Henq & Hlen & Hcb).
      destruct (enqueue_drop_oldest_spec sample (_audio_queue _ self)
                  (build_chunk _ self (concat (_buffer _ self ++ [b]))) Hq)
        as (q'' & Henq' & _ & Hroom & Hfull).
      assert (q'' = q') by congruence. subst q''.
      eexists. eexists. split; [exact Hcb | ].
      cbn [_audio_queue step_samples window_samples _is_paused].
      split; [exact Hlen | ].
      split; [reflexivity | ]. split; [reflexivity | ].
      split; [exact Hp | ].
      unfold QUEUE_MAXSIZE in *.
      destruct (Z.ltb_spec (len (_audio_queue _ self)) 10) as [H | H].
      * apply Hroom, H.
      * apply Hfull. lia.
    + rewrite (callback_buffers sample self b Hp Hlt).
      eexists. eexists. split; [reflexivity | ].
      cbn [_audio_queue with_buffer step_samples window_samples _is_paused].
      repeat split; try assumption; reflexivity.
Qed.

(** X2.  The queue after a run.  With at most ten windows queued at the
    start, feeding any blocks returns from every callback, and the queue
    then holds, oldest first, the last ten of the windows it held and the
    windows emitted since: overflow drops the oldest windows and never
    reorders the others. *)
Theorem queue_holds_latest_windows (blocks : list (list sample)) :
  forall (self : AudioRecorder sample) (pos : Z),
    len (_audio_queue _ self) <= QUEUE_MAXSIZE ->
    exists self' pos' es,
      feed _ self pos blocks = Some (self', pos', es)
      /\ _audio_queue _ self'
         = keep_last 10 (_audio_queue _ self ++ map e_window es)
      /\ len (_audio_queue _ self') <= QUEUE_MAXSIZE.
Proof.
  induction blocks as [| b rest IH]; intros self pos Hq.
  - exists self, pos, []. cbn [feed map]. rewrite app_nil_r.
    split; [reflexivity | ]. split; [ | exact Hq].
    symmetry. apply keep_last_all. unfold QUEUE_MAXSIZE, len in Hq. lia.
  - destruct (callback_push self b Hq)
      as (self1 & out & Hcb & Hq1 & _ & _ & _ & Hout).
    cbn [feed]. rewrite Hcb.
    destruct (IH self1 (if _is_paused _ self then pos else pos + len b) Hq1)
      as (self' & pos' & es & Hfeed & Hqueue & Hlen).
    rewrite Hfeed. eexists. eexists. eexists.
    split; [reflexivity | ]. split; [ | exact Hlen].
    rewrite Hqueue. destruct out as [w | ].
    + rewrite Hout, keep_last_snoc by exact Hq.
      cbn [map e_window]. rewrite keep_last_app, <- app_assoc. reflexivity.
    + rewrite Hout. reflexivity.
Qed.

(** X3.  Pausing.  While the recorder is paused every block is discarded:
    the recorder is unchanged, the stream position does not move and no
    window is emitted; and [resume] after [pause] gives the recorder that
    [resume] alone gives. *)
Theorem paused_recorder_ignores_audio (self : AudioRecorder sample)
  (pos : Z) (blocks : list (list sample)) :
  feed _ (pause _ self) pos blocks = Some (pause _ self, pos, [])
  /\ resume _ (pause _ self) = resume _ self.
Proof.
  split; [ | reflexivity].
  induction blocks as [| b rest IH]; [reflexivity | ].
  cbn [feed]. unfold _audio_callback at 1.
  change (_is_paused _ (pause _ self)) with true. cbv iota.
  rewrite IH. reflexivity.
Qed.

(** X4.  Stopping twice.  When [stop] returns, the buffer is empty and the
    recorder is no longer recording, whatever was flushed; a second [stop]
    then returns at once, flushes nothing and changes nothing, even with
    the queue full. *)
Theorem stop_twice (self self' : AudioRecorder sample)
  (flushed : option (list sample)) :
  stop _ self = Some (self', flushed) ->
  _buffer _ self' = []
  /\ _is_recording _ self' = false
  /\ (flushed = None <-> _buffer _ self = [])
  /\ stop _ self' = Some (self', None).
Proof.
  unfold stop. cbn [_buffer with_flags _audio_queue].
  destruct (_buffer _ self) as [| b0 bs] eqn:Hbuf.
  - intros H. injection H as <- <-.
    cbn [_buffer with_flags _is_recording]. rewrite Hbuf.
    repeat split; reflexivity.
  - destruct (put _ (_audio_queue _ self) (concat (b0 :: bs))) as [q | ];
      [ | discriminate].
    intros H. injection H as <- <-.
    cbn [_buffer with_flags with_buffer with_queue _is_recording].
    repeat split; try reflexivity; discriminate.
Qed.

End More.

(** A recorder with one sample in its buffer and room in its queue: [stop]
    flushes the sample, and a second [stop] does nothing. *)
Lemma stop_twice_witness :
  exists self self',
    _audio_callback Z Scenarios.small_recorder [7] = Returned self None
    /\ _buffer _ self = [[7]]
    /\ stop _ self = Some (self', Some [7])
    /\ _audio_queue _ self' = [[7]]
    /\ _buffer _ self' = []
    /\ _is_recording _ self' = false
    /\ (Some [7] = None <-> _buffer _ self = [])
    /\ stop _ self' = Some (self', None).
Proof.
  eexists. eexists.
  split; [reflexivity | ]. split; [reflexivity | ].
  split; [reflexivity | ]. split; [reflexivity | ].
  eapply stop_twice. reflexivity.
Defined.

Lemma callback_push_witness :
  exists self' out,
    _audio_callback _ Scenarios.small_recorder [1; 2; 3] = Returned self' out
    /\ len (_audio_queue _ self') <= QUEUE_MAXSIZE
    /\ step_samples _ self' = step_samples _ Scenarios.small_recorder
    /\ window_samples _ self' = window_samples _ Scenarios.small_recorder
    /\ _is_paused _ self' = _is_paused _ Scenarios.small_recorder
    /\ match out with
       | None => _audio_queue _ self' = _audio_queue _ Scenarios.small_recorder
       | Some w =>
           _audio_queue _ self'
           = (if len (_audio_queue _ Scenarios.small_recorder) <? QUEUE_MAXSIZE
              then _audio_queue _ Scenarios.small_recorder
              else tl (_audio_queue _ Scenarios.small_recorder)) ++ [w]
       end.
Proof.
  apply (callback_push Z Scenarios.small_recorder [1; 2; 3]).
  vm_compute. discriminate.
Defined.

Lemma queue_holds_latest_windows_witness :
  exists self' pos' es,
    feed _ Scenarios.small_recorder 0 (repeat Scenarios.step_block 12)
    = Some (self', pos', es)
    /\ _audio_queue _ self'
       = keep_last 10 (_audio_queue _ Scenarios.small_recorder
                         ++ map e_window es)
    /\ len (_audio_queue _ self') <= QUEUE_MAXSIZE.
Proof.
  apply (queue_holds_latest_windows Z (repeat Scenarios.step_block 12)
           Scenarios.small_recorder 0).
  vm_compute. discriminate.
Defined.

End AudioMore.

(* ================================================================== *)
(** ** More on the splitter: windows, boundaries and chunk indices *)

Module SplitFacts.
Import Py PyFacts Config Backends Chunking Tiling ChunkingFacts.

Lemma len_join_lines (parts : list str) :
  parts <> [] ->
  len (join newline parts)
  = fold_right (fun p n => len p + 1 + n) 0 parts - 1.
Proof.
  induction parts as [| p rest IH]; [congruence | intros _].
  destruct rest as [| q rest].
  - cbn [join fold_right]. lia.
  - change (join newline (p :: q :: rest))
      with (p ++ newline ++ join newline (q :: rest)).
    rewrite !len_app, IH by discriminate.
    change (len newline) with 1. cbn [fold_right]. lia.
Qed.

Lemma counted_fold (es : list TranscriptEntry) :
  counted es = fold_right (fun p n => len p + 1 + n) 0 (map entry_str es).
Proof.
  induction es as [| e es IH]; cbn [counted map fold_right]; [reflexivity | ].
  rewrite IH. reflexivity.
Qed.

Lemma len_rendered (es : list TranscriptEntry) :
  es <> [] -> len (join newline (map entry_str es)) = counted es - 1.
Proof.
  intros H. rewrite len_join_lines, counted_fold; [reflexivity | ].
  destruct es; [congruence | discriminate].
Qed.

Lemma counted_nonneg (es : list TranscriptEntry) : 0 <= counted es.
Proof.
  induction es as [| e es IH]; cbn [counted]; [lia | ].
  pose proof (len_nonneg (entry_str e)). lia.
Qed.

Lemma take_window_cap (rest : list TranscriptEntry) :
  forall acc w n,
    take_window rest acc = (w, n) ->
    acc <= BOUNDARY_DETECTION_MAX + 1 ->
    n <= BOUNDARY_DETECTION_MAX + 1
    /\ exists tl, rest = w ++ tl
         /\ match tl with
            | [] => True
            | e :: _ => n + len (entry_str e) > BOUNDARY_DETECTION_MAX
            end.
Proof.
  induction rest as [| e rest IH]; intros acc w n H Hacc;
    cbn [take_window] in H.
  - injection H as <- <-. split; [exact Hacc | ]. exists []. split; auto.
  - destruct (Z.gtb_spec (acc + len (entry_str e)) BOUNDARY_DETECTION_MAX)
      as [Hgt | Hle].
    + injection H as <- <-. split; [exact Hacc | ].
      exists (e :: rest). split; [reflexivity | lia].
    + destruct (take_window rest (acc + len (entry_str e) + 1))
        as [w' n'] eqn:H'.
      injection H as <- <-.
      destruct (IH _ _ _ H') as (Hn & tl & Htl & Hnext); [lia | ].
      split; [exact Hn | ]. exists tl.
      split; [cbn [app]; congruence | exact Hnext].
Qed.

Section Facts.
Variable nonascii_digit : Py.char -> option Z.
Variable backend : Backend.

(** X5.  The scanning window.  The window taken at [window_start] is the
    longest run of entries from there whose rendered text, joined by
    newlines, has at most [BOUNDARY_DETECTION_MAX] characters: it is a
    prefix of the remaining entries, it fits the cap, and the entry after
    it, if any, would not fit. *)
Theorem window_is_longest_fitting_prefix
  (transcripts : list TranscriptEntry) (window_start : Z)
  (window_entries : list TranscriptEntry) (n : Z) :
  take_window (slice_from transcripts window_start) 0 = (window_entries, n) ->
  n = counted window_entries
  /\ len (join newline (map entry_str window_entries))
     <= BOUNDARY_DETECTION_MAX
  /\ exists tl,
       slice_from transcripts window_start = window_entries ++ tl
       /\ match tl with
          | [] => True
          | e :: _ =>
              len (join newline (map entry_str (window_entries ++ [e])))
              > BOUNDARY_DETECTION_MAX
          end.
Proof.
  intros H.
  destruct (take_window_spec _ _ _ _ H) as [Hn _].
  destruct (take_window_cap _ _ _ _ H) as (Hcap & tl & Htl & Hnext);
    [unfold BOUNDARY_DETECTION_MAX; lia | ].
  split; [lia | ]. split.
  - destruct window_entries as [| e w];
      [cbn; unfold BOUNDARY_DETECTION_MAX; lia | ].
    rewrite len_rendered by discriminate. lia.
  - exists tl. split; [exact Htl | ].
    destruct tl as [| e tl']; [exact I | ].
    rewrite len_rendered by (destruct window_entries; discriminate).
    assert (Hc : counted (window_entries ++ [e])
                 = counted window_entries + len (entry_str e) + 1).
    { clear. induction window_entries as [| x w IH]; cbn [app counted];
        [lia | rewrite IH; lia]. }
    rewrite Hc. lia.
Qed.

(** What one turn of the scan can record. *)
Lemma scan_window_boundary (transcripts : list TranscriptEntry)
  (window_start : Z) (log log' : list Prompt) (b : Z) :
  0 <= window_start ->
  scan_window nonascii_digit backend transcripts window_start log
  = (Boundary b, log') ->
  window_start <= b < len transcripts
  /\ exists p, is_boundary_prompt p /\ log' = log ++ [p].
Proof.
  intros Hws Hscan.
  destruct (scan_window_cases nonascii_digit backend transcripts
              window_start log)
    as [Hbreak | (e & rest & n & Hw & Hn)]; [congruence | ].
  rewrite (scan_window_eq _ _ _ _ _ _ _ _ Hw Hn) in Hscan.
  destruct (take_window_spec _ _ _ _ Hw) as [_ [tl Htl]].
  assert (Hlen : window_start + len (e :: rest) <= len transcripts).
  { rewrite slice_from_inside in Htl by assumption.
    assert (Hl : len (skipn (Z.to_nat window_start) transcripts)
                 = len (e :: rest) + len tl)
      by (rewrite Htl, len_app; reflexivity).
    unfold len in Hl |- *. rewrite length_skipn in Hl.
    cbn [length] in *. lia. }
  assert (Hone : 1 <= len (e :: rest))
    by (rewrite len_cons; pose proof (len_nonneg rest); lia).
  assert (Hmid : window_start <= mid_point window_start (e :: rest)
                 < len transcripts).
  { unfold mid_point.
    assert (0 <= len (e :: rest) / 2) by (apply Z.div_pos; lia).
    assert (len (e :: rest) / 2 < len (e :: rest))
      by (apply Z.div_lt; lia).
    lia. }
  destruct (backend (length log) _) as [result | msg].
  - destruct (_parse_boundaries nonascii_digit result window_start
                (window_start + len (e :: rest)))
      as [| first others] eqn:Hp.
    + injection Hscan as <- <-. split; [exact Hmid | ].
      eexists. split; [eexists; reflexivity | reflexivity].
    + injection Hscan as <- <-.
      assert (Hin : In first (_parse_boundaries nonascii_digit result
                                window_start
                                (window_start + len (e :: rest))))
        by (rewrite Hp; left; reflexivity).
      apply parse_in_range in Hin. split; [lia | ].
      eexists. split; [eexists; reflexivity | reflexivity].
  - injection Hscan as <- <-. split; [exact Hmid | ].
    eexists. split; [eexists; reflexivity | reflexivity].
Qed.

Lemma scan_window_break (transcripts : list TranscriptEntry)
  (window_start : Z) (log log' : list Prompt) :
  scan_window nonascii_digit backend transcripts window_start log
  = (Break, log') ->
  log' = log.
Proof.
  intros Hscan.
  destruct (scan_window_cases nonascii_digit backend transcripts
              window_start log)
    as [Hbreak | (e & rest & n & Hw & Hn)]; [congruence | ].
  rewrite (scan_window_eq _ _ _ _ _ _ _ _ Hw Hn) in Hscan.
  destruct (backend (length log) _) as [result | msg];
    [destruct (_parse_boundaries nonascii_digit result window_start
                 (window_start + len (e :: rest))) | ];
    discriminate Hscan.
Qed.

Lemma detect_loop_spec (transcripts : list TranscriptEntry) (fuel : nat) :
  forall (window_start : Z) (boundaries0 : list Z) (log : list Prompt)
         (boundaries : list Z) (log' : list Prompt),
    0 <= window_start ->
    detect_loop nonascii_digit backend fuel transcripts window_start
      boundaries0 log = Some (boundaries, log') ->
    exists new ps,
      boundaries = boundaries0 ++ new
      /\ log' = log ++ ps
      /\ Forall (fun b => 0 <= b < len transcripts) new
      /\ ascending_from window_start new
      /\ length ps = length new
      /\ Forall is_boundary_prompt ps.
Proof.
  induction fuel as [| fuel IH]; intros ws bs0 log bs log' Hws H;
    [discriminate H | ].
  cbn [detect_loop] in H.
  destruct (ws <? len transcripts).
  - destruct (scan_window nonascii_digit backend transcripts ws log)
      as [[| b] log1] eqn:Hscan.
    + injection H as <- <-.
      apply scan_window_break in Hscan. subst log1.
      exists [], []. rewrite !app_nil_r. repeat split; constructor.
    + destruct (scan_window_boundary _ _ _ _ _ Hws Hscan)
        as (Hb & p & Hp & Hlog).
      destruct (IH b (bs0 ++ [b]) log1 bs log') as
        (new & ps & Hbs & Hlog' & Hin & Hasc & Hlen & Hps);
        [lia | exact H | ].
      exists (b :: new), (p :: ps).
      rewrite Hbs, Hlog', Hlog, <- !app_assoc. cbn [app length ascending_from].
      repeat split; try reflexivity; try lia; try assumption.
      * constructor; [lia | exact Hin].
      * constructor; [exact Hp | exact Hps].
  - injection H as <- <-. exists [], []. rewrite !app_nil_r.
    repeat split; constructor.
Qed.

(** X6.  The boundaries of the scan.  When [_detect_boundaries] returns,
    every boundary it recorded is an index of the transcript, each is at or
    after the one before, one prompt was sent to the backend for each
    boundary recorded, and nothing but boundary-detection prompts was
    sent. *)
Theorem detect_boundaries_spec (fuel : nat)
  (transcripts : list TranscriptEntry) (log log' : list Prompt)
  (boundaries : list Z) :
  _detect_boundaries nonascii_digit backend fuel transcripts log
  = Some (boundaries, log') ->
  Forall (fun b => 0 <= b < len transcripts) boundaries
  /\ ascending_from 0 boundaries
  /\ exists ps, log' = log ++ ps
       /\ length ps = length boundaries
       /\ Forall is_boundary_prompt ps.
Proof.
  unfold _detect_boundaries. intros H.
  destruct (detect_loop_spec transcripts fuel 0 [] log boundaries log'
              (Z.le_refl 0) H)
    as (new & ps & Hbs & Hlog & Hin & Hasc & Hlen & Hps).
  cbn [app] in Hbs. subst boundaries.
  split; [exact Hin | ]. split; [exact Hasc | ].
  exists ps. repeat split; assumption.
Qed.

(** *** Chunk indices *)

Lemma tiles_app (transcripts : list TranscriptEntry) (cs cs' : list Chunk) :
  forall a b c,
    tiles transcripts a cs b -> tiles transcripts b cs' c ->
    tiles transcripts a (cs ++ cs') c.
Proof.
  induction cs as [| x cs IH]; intros a b c H H'; cbn [tiles app] in *.
  - subst b. exact H'.
  - destruct H as (H1 & H2 & H3 & H4 & H5).
    repeat split; try assumption. eapply IH; eassumption.
Qed.

Lemma len_slice {A} (l : list A) (a b : Z) :
  0 <= a <= b -> b <= len l -> len (slice l a b) = b - a.
Proof.
  intros Hab Hb. rewrite slice_inside by assumption.
  unfold len in *. rewrite length_firstn, length_skipn. lia.
Qed.

Lemma slice_to_end {A} (l : list A) (a : Z) :
  0 <= a -> slice l a (len l) = slice_from l a.
Proof.
  intros Ha. rewrite slice_from_inside by assumption.
  destruct (Z.le_gt_cases a (len l)) as [Hle | Hgt].
  - rewrite slice_inside by lia. apply firstn_all2.
    unfold len. rewrite length_skipn. lia.
  - unfold slice, norm_index.
    destruct (Z.ltb_spec a 0); [lia | ].
    pose proof (len_nonneg l).
    destruct (Z.ltb_spec (len l) 0); [lia | ].
    rewrite (Z.min_r a), Z.min_id by lia.
    rewrite Z.sub_diag. cbn [Z.to_nat firstn].
    symmetry. apply skipn_all2. unfold len in *. lia.
Qed.

Lemma one_chunk_tiles (transcripts : list TranscriptEntry) (a b : Z) :
  0 <= a < b -> b <= len transcripts ->
  tiles transcripts a [mkChunk (slice transcripts a b) a (b - 1)] b.
Proof.
  intros Hab Hb. cbn [tiles start_index end_index entries].
  replace (b - 1 + 1) with b by lia.
  repeat split; try lia.
  intros Hnil. apply (f_equal len) in Hnil.
  rewrite len_slice, len_nil in Hnil; lia.
Qed.

Lemma split_loop_tiles (transcripts : list TranscriptEntry)
  (boundaries : list Z) :
  Forall (fun b => 0 <= b < len transcripts) boundaries ->
  forall (start_idx : Z) (chunks : list Chunk),
    0 <= start_idx <= len transcripts ->
    tiles transcripts 0 chunks start_idx ->
    0 <= snd (split_loop transcripts boundaries start_idx chunks)
      <= len transcripts
    /\ tiles transcripts 0
         (fst (split_loop transcripts boundaries start_idx chunks))
         (snd (split_loop transcripts boundaries start_idx chunks)).
Proof.
  induction 1 as [| b rest Hb _ IH]; intros start chunks Hs Ht;
    cbn [split_loop].
  - split; assumption.
  - destruct (Z.gtb_spec b start) as [Hgt | Hle].
    + apply IH; [lia | ].
      eapply tiles_app; [exact Ht | ].
      apply one_chunk_tiles; lia.
    + apply IH; assumption.
Qed.

(** X7.  The chunks of [split].  Whenever [split] returns, its chunks
    cover the transcript from the first entry to the last, in order and
    without gap or overlap; no chunk is empty; and each chunk's entries are
    the entries [start_index .. end_index] of the transcript. *)
Theorem split_tiles (fuel : nat) (transcripts : list TranscriptEntry)
  (log log' : list Prompt) (chunks : list Chunk) :
  split nonascii_digit backend fuel transcripts log = Some (chunks, log') ->
  tiles transcripts 0 chunks (len transcripts).
Proof.
  unfold split. destruct transcripts as [| e0 ts0] eqn:Hts.
  - intros H. injection H as <- _. reflexivity.
  - rewrite <- Hts.
    assert (Hpos : 0 < len transcripts)
      by (rewrite Hts, len_cons; pose proof (len_nonneg ts0); lia).
    assert (Hwhole : tiles transcripts 0 [whole transcripts]
                       (len transcripts)).
    { unfold whole. cbn [tiles start_index end_index entries].
      replace (len transcripts - 1 + 1) with (len transcripts) by lia.
      rewrite slice_to_end, slice_from_0 by lia.
      repeat split; try lia. rewrite Hts. discriminate. }
    clear Hts e0 ts0.
    destruct (len (join newline (map entry_str transcripts))
              <=? CHUNK_THRESHOLD).
    + intros H. injection H as <- _. exact Hwhole.
    + destruct (_detect_boundaries nonascii_digit backend fuel transcripts log)
        as [[boundaries log1] | ] eqn:Hd; [ | discriminate].
      destruct (detect_boundaries_spec _ _ _ _ _ Hd) as [Hin _].
      pose proof (split_loop_tiles transcripts boundaries Hin 0 []) as Hloop.
      destruct (split_loop transcripts boundaries 0 []) as [cs start].
      cbn [fst snd] in Hloop.
      destruct Hloop as [Hstart Htiles]; [lia | reflexivity | ].
      intros H. injection H as <- _.
      destruct (Z.ltb_spec start (len transcripts)) as [Hlt | Hge].
      * assert (Hall : tiles transcripts 0
                         (cs ++ [mkChunk (slice_from transcripts start) start
                                   (len transcripts - 1)])
                         (len transcripts)).
        { eapply tiles_app; [exact Htiles | ].
          rewrite <- slice_to_end by lia.
          apply one_chunk_tiles; lia. }
        destruct (cs ++ [mkChunk (slice_from transcripts start) start
                           (len transcripts - 1)]) eqn:Hcs;
          [destruct cs; discriminate Hcs | exact Hall].
      * assert (start = len transcripts) by lia. subst start.
        destruct cs as [| c cs']; [exact Hwhole | exact Htiles].
Qed.

End Facts.
End SplitFacts.

(* ================================================================== *)
(** ** The splitter on a long transcript *)

Module SplitWitnesses.
Import Py PyFacts Config Backends Chunking Tiling Scenarios SplitFacts.

(** The first window of the sixty entries holds 29 of them: the 30th would
    take the text over the cap. *)
Lemma window_is_longest_fitting_prefix_witness :
  29029 = counted (firstn 29 scenario_long)
  /\ len (join newline (map entry_str (firstn 29 scenario_long)))
     <= BOUNDARY_DETECTION_MAX
  /\ len (join newline (map entry_str (firstn 30 scenario_long)))
     > BOUNDARY_DETECTION_MAX.
Proof.
  destruct (window_is_longest_fitting_prefix scenario_long 0
              (firstn 29 scenario_long) 29029)
    as (Hn & Hfit & tl & Htl & Hnext).
  - vm_cast_no_check (@eq_refl _ (firstn 29 scenario_long, 29029)).
  - split; [exact Hn | ]. split; [exact Hfit | ].
    rewrite slice_from_0 in Htl.
    rewrite <- (firstn_skipn 29 scenario_long) in Htl at 1.
    apply app_inv_head in Htl. subst tl.
    exact Hnext.
Defined.

(** The scan of the sixty entries sends five prompts and records the five
    boundaries the backend names. *)
Lemma detect_boundaries_spec_witness :
  Forall (fun b => 0 <= b < len scenario_long) [10; 20; 30; 40; 50]
  /\ ascending_from 0 [10; 20; 30; 40; 50]
  /\ exists ps, scan_prompts = [] ++ ps
       /\ length ps = length [10; 20; 30; 40; 50]
       /\ Forall is_boundary_prompt ps.
Proof.
  apply (detect_boundaries_spec no_digits topic_every_ten 10 scenario_long
           [] scan_prompts [10; 20; 30; 40; 50]).
  vm_cast_no_check
    (@eq_refl _ (Some ([10; 20; 30; 40; 50], scan_prompts))).
Defined.

(** The sixty entries are cut at the five boundaries into six chunks. *)
Lemma split_tiles_witness :
  tiles scenario_long 0
    [mkChunk (slice scenario_long 0 10) 0 9;
     mkChunk (slice scenario_long 10 20) 10 19;
     mkChunk (slice scenario_long 20 30) 20 29;
     mkChunk (slice scenario_long 30 40) 30 39;
     mkChunk (slice scenario_long 40 50) 40 49;
     mkChunk (slice_from scenario_long 50) 50 59]
    (len scenario_long).
Proof.
  apply (split_tiles no_digits topic_every_ten 10 scenario_long []
           scan_prompts).
  match goal with |- _ = ?r => vm_cast_no_check (@eq_refl _ r) end.
Defined.

End SplitWitnesses.

(* ================================================================== *)
(** ** The map-reduce generator *)

Module MapReduceFacts.
Import Py PyFacts Config Backends Chunking MapReduce Scenarios.

Section Facts.
Variable nonascii_digit : Py.char -> option Z.
Variable backend : Backend.

(** The extraction loop either stops at the first chunk whose call raises,
    or ends with one labelled reply per chunk. *)
Lemma extract_loop_spec (chunks : list Chunk) :
  forall (i total : Z) (points_list : list str) (log : list Prompt),
    (exists done c rest m,
        chunks = done ++ c :: rest
        /\ extract_loop backend chunks i total points_list log
           = (Failed m, log ++ map extract_prompt done ++ [extract_prompt c])
        /\ backend (length log + length done)%nat (extract_prompt c) = Raises m)
    \/ (exists replies,
           Forall2 (answered backend) chunks replies
           /\ extract_loop backend chunks i total points_list log
              = (Done (points_list ++ labels i total replies),
                 log ++ map extract_prompt chunks)).
Proof.
  induction chunks as [| c rest IH]; intros i total pts log.
  - right. exists []. split; [constructor | ].
    cbn [extract_loop labels map]. rewrite !app_nil_r. reflexivity.
  - cbn [extract_loop]. unfold _extract_points, Backends.generate.
    destruct (backend (length log) (extract_prompt c)) as [t | m] eqn:Hr.
    + destruct (IH (i + 1) total (pts ++ [labelled (i + 1) total t])
                  (log ++ [extract_prompt c]))
        as [(done & c' & rest' & m & Hch & Hloop & Hraise)
           | (replies & Hans & Hloop)].
      * left. exists (c :: done), c', rest', m.
        split; [rewrite Hch; reflexivity | ].
        split.
        -- rewrite Hloop. cbn [map app]. rewrite <- !app_assoc. reflexivity.
        -- rewrite length_app in Hraise. cbn [length] in *.
           replace (length log + S (length done))%nat
             with (length log + 1 + length done)%nat by lia.
           exact Hraise.
      * right. exists (t :: replies).
        split; [constructor; [exists (length log); exact Hr | exact Hans] | ].
        rewrite Hloop. cbn [labels map app]. rewrite <- !app_assoc.
        reflexivity.
    + left. exists [], c, rest, m.
      split; [reflexivity | ].
      split; [reflexivity | ].
      rewrite Nat.add_0_r. exact Hr.
Qed.

(** X8.  Map, then reduce.  When the splitter returns chunks, [generate]
    sends one extraction prompt per chunk, in chunk order, and stops at the
    first extraction that raises: its failure is that of the call and no
    merge prompt is sent.  When every extraction is answered, it sends one
    merge prompt with the template and the replies, each under its heading
    [i/total] and joined by blank lines, and its outcome is that of the
    merge call. *)
Theorem generate_maps_then_reduces (fuel : nat)
  (transcripts : list TranscriptEntry) (template_text : str)
  (log log1 : list Prompt) (chunks : list Chunk) :
  split nonascii_digit backend fuel transcripts log = Some (chunks, log1) ->
  (exists done c rest m,
      chunks = done ++ c :: rest
      /\ backend (length log1 + length done)%nat (extract_prompt c) = Raises m
      /\ generate nonascii_digit backend fuel transcripts template_text log
         = Some (Failed m,
                 log1 ++ map extract_prompt done ++ [extract_prompt c]))
  \/ (exists replies,
         Forall2 (answered backend) chunks replies
         /\ let merge :=
              MERGE_POINTS_PROMPT template_text
                (join (newline ++ newline) (labels 0 (len chunks) replies)) in
            generate nonascii_digit backend fuel transcripts template_text log
            = Some (match backend (length log1 + length chunks)%nat merge with
                    | Text result => Done result
                    | Raises m => Failed m
                    end,
                    log1 ++ map extract_prompt chunks ++ [merge])).
Proof.
  intros Hsplit. unfold generate. rewrite Hsplit.
  destruct (extract_loop_spec chunks 0 (len chunks) [] log1)
    as [(done & c & rest & m & Hch & Hloop & Hraise)
       | (replies & Hans & Hloop)].
  - left. exists done, c, rest, m.
    split; [exact Hch | ]. split; [exact Hraise | ].
    rewrite Hloop. reflexivity.
  - right. exists replies. split; [exact Hans | ].
    cbv zeta. rewrite Hloop. cbn [app].
    unfold _merge_points, Backends.generate.
    rewrite length_app, length_map.
    destruct (backend (length log1 + length chunks)%nat _);
      rewrite <- app_assoc; reflexivity.
Qed.

(** X9.  Small inputs.  On the empty transcript [generate] does not stop
    early: it sends the merge prompt, with no points, and nothing else.  On
    a non-empty transcript within [CHUNK_THRESHOLD] it sends exactly two
    prompts when the first is answered: the extraction of the whole
    rendered transcript, then the merge of that one reply under the heading
    [1/1]. *)
Theorem generate_on_small_transcripts (fuel : nat) (template_text : str)
  (log : list Prompt) :
  generate nonascii_digit backend fuel [] template_text log
  = Some (match backend (length log)
                  (MERGE_POINTS_PROMPT template_text []) with
          | Text result => Done result
          | Raises m => Failed m
          end, log ++ [MERGE_POINTS_PROMPT template_text []])
  /\ forall (transcripts : list TranscriptEntry) (reply : str),
       transcripts <> [] ->
       len (join newline (map entry_str transcripts)) <= CHUNK_THRESHOLD ->
       backend (length log)
         (EXTRACT_POINTS_PROMPT (join newline (map entry_str transcripts)))
       = Text reply ->
       let merge :=
         MERGE_POINTS_PROMPT template_text (labelled 1 1 reply) in
       generate nonascii_digit backend fuel transcripts template_text log
       = Some (match backend (S (length log)) merge with
               | Text result => Done result
               | Raises m => Failed m
               end,
               log ++ [EXTRACT_POINTS_PROMPT
                         (join newline (map entry_str transcripts));
                       merge]).
Proof.
  split.
  - unfold generate. cbn [split extract_loop].
    unfold _merge_points, Backends.generate. cbn [join].
    destruct (backend (length log) _); reflexivity.
  - intros transcripts reply Hne Hlen Hreply merge.
    unfold generate.
    rewrite (ChunkingFacts.split_small nonascii_digit backend fuel
               transcripts log Hne Hlen).
    cbn [extract_loop]. unfold _extract_points, Backends.generate.
    unfold extract_prompt, to_text, whole. cbn [entries].
    rewrite Hreply. cbn [app].
    unfold _merge_points, Backends.generate. cbn [join].
    rewrite length_app. cbn [length]. rewrite Nat.add_1_r.
    subst merge. change (len [whole transcripts]) with 1.
    change (0 + 1) with 1.
    destruct (backend (S (length log)) _);
      rewrite <- app_assoc; reflexivity.
Qed.

End Facts.

Lemma generate_maps_then_reduces_witness :
  (exists done c rest m,
      [whole two_entries] = done ++ c :: rest
      /\ always_fails (length (@nil Prompt) + length done)%nat
           (extract_prompt c)
         = Raises m
      /\ generate no_digits always_fails 1 two_entries (lit "# minutes") []
         = Some (Failed m,
                 [] ++ map extract_prompt done ++ [extract_prompt c]))
  \/ (exists replies,
         Forall2 (answered always_fails) [whole two_entries] replies
         /\ let merge :=
              MERGE_POINTS_PROMPT (lit "# minutes")
                (join (newline ++ newline)
                   (labels 0 (len [whole two_entries]) replies)) in
            generate no_digits always_fails 1 two_entries (lit "# minutes") []
            = Some (match always_fails
                            (length (@nil Prompt)
                             + length [whole two_entries])%nat merge with
                    | Text result => Done result
                    | Raises m => Failed m
                    end,
                    [] ++ map extract_prompt [whole two_entries] ++ [merge])).
Proof.
  apply (generate_maps_then_reduces no_digits always_fails 1 two_entries
           (lit "# minutes") [] [] [whole two_entries]).
  vm_compute. reflexivity.
Defined.

End MapReduceFacts.

(* ================================================================== *)
(** ** More on the minutes updater *)

Module MinutesMore.
Import Py PyFacts Config Backends Chunking Minutes Scenarios.
Import ChunkingFacts SplitFacts MinutesFacts.

Lemma slice_from_len {A} (l : list A) : slice_from l (len l) = [].
Proof.
  rewrite slice_from_inside by apply len_nonneg.
  apply skipn_all2. unfold len. lia.
Qed.

Lemma len_slice_from {A} (l : list A) (i : Z) :
  0 <= i <= len l -> len (slice_from l i) = len l - i.
Proof.
  intros H. rewrite slice_from_inside by lia.
  unfold len in *. rewrite length_skipn. lia.
Qed.

Section Facts.
Variable render : Template -> Context -> Py.str -> Py.str.
Variable env : Env.

Local Notation "'upd'" := (update render env).

(** X11.  Updating twice.  After an update that succeeded, in a session
    whose counter is not negative, a second [update] with [full = false] on
    the same snapshot is a no-op: it succeeds with no new entry and the
    same document, sends nothing to the backend, writes nothing and leaves
    the object as the first update left it. *)
Theorem update_twice_is_noop (self self' : MinutesUpdater) (w w' : World)
  (transcripts : list TranscriptEntry) (full : bool) (now now' : datetime)
  (r : UpdateResult) :
  0 <= update_count self ->
  upd transcripts full now (self, w) = (Ok r, (self', w')) ->
  success r = true ->
  upd transcripts false now' (self', w')
  = (Ok (mkResult true (current_minutes self') 0 (len transcripts)
           (update_count self') None), (self', w')).
Proof.
  intros Hcount Hupd Hok.
  destruct transcripts as [| e rest].
  - cbn in Hupd. injection Hupd as <- _ _. discriminate Hok.
  - assert (Hdone : forall doc c,
               0 <= c ->
               planned render (committed self doc (len (e :: rest)) (c + 1))
                 (e :: rest) false now' = None).
    { intros doc c Hc. unfold planned, get_new_transcripts, committed.
      cbn [update_count last_update_index orb].
      destruct (Z.eqb_spec (c + 1 + 1) 1); [lia | ].
      rewrite slice_from_len. reflexivity. }
    destruct (planned render self (e :: rest) full now) as [[p n] | ]
      eqn:Hplan.
    + destruct (backend env (length (calls w)) p) as [doc | msg] eqn:Hreply.
      * rewrite (update_text _ _ _ _ _ _ _ _ _ _ _ Hplan Hreply) in Hupd.
        destruct (version_history self && negb (simple_mode self));
          [destruct (write_error env (write_attempts w)) as [msg | ] | ];
          injection Hupd as <- <- <-; try discriminate Hok;
          apply update_noop, Hdone, Hcount.
      * rewrite (update_raises _ _ _ _ _ _ _ _ _ _ _ Hplan Hreply) in Hupd.
        injection Hupd as <- _ _. discriminate Hok.
    + rewrite (update_noop _ _ _ _ _ _ _ _ Hplan) in Hupd.
      injection Hupd as _ <- <-.
      apply update_noop.
      unfold planned in Hplan |- *.
      destruct full; cbn [orb] in Hplan |- *; [discriminate Hplan | ].
      destruct (update_count self + 1 =? 1);
        [discriminate Hplan | exact Hplan].
Qed.

(** X12.  An incremental update sends only what is new.  In a session
    whose counter is not 0, [update] with [full = false] on a snapshot with
    entries after [last_update_index] sends one prompt, which holds the
    current document and the rendered entries from [last_update_index] on,
    not the whole transcript; on success it reports that many new entries,
    makes the backend's text the document, advances [last_update_index] to
    the size of the snapshot and adds one to the counter. *)
Theorem incremental_update_sends_new_entries (self self' : MinutesUpdater)
  (w w' : World) (transcripts : list TranscriptEntry) (now : datetime)
  (r : UpdateResult) :
  update_count self <> 0 ->
  get_new_transcripts self transcripts <> [] ->
  upd transcripts false now (self, w) = (Ok r, (self', w')) ->
  let prompt :=
    INCREMENTAL_UPDATE_PROMPT (current_minutes self)
      (join newline
         (map entry_str
            (slice_from transcripts (last_update_index self)))) in
  calls w' = calls w ++ [prompt]
  /\ (success r = true ->
      backend env (length (calls w)) prompt = Text (current_minutes self')
      /\ minutes r = current_minutes self'
      /\ new_entries_count r
         = len (slice_from transcripts (last_update_index self))
      /\ last_update_index self' = len transcripts
      /\ update_count self' = update_count self + 1)
  /\ (0 <= last_update_index self <= len transcripts ->
      len (slice_from transcripts (last_update_index self))
      = len transcripts - last_update_index self).
Proof.
  intros Hcount Hnew Hupd prompt.
  destruct transcripts as [| e rest].
  { exfalso. apply Hnew. unfold get_new_transcripts, slice_from.
    apply skipn_nil. }
  assert (Hplan : planned render self (e :: rest) false now
                  = Some (prompt,
                          len (slice_from (e :: rest)
                                 (last_update_index self)))).
  { unfold planned. cbn [orb].
    destruct (Z.eqb_spec (update_count self + 1) 1); [lia | ].
    destruct (get_new_transcripts self (e :: rest)) eqn:Hn;
      [congruence | ].
    rewrite <- Hn. reflexivity. }
  split; [ | split; [ | apply len_slice_from]].
  all: destruct (backend env (length (calls w)) prompt) as [doc | msg]
         eqn:Hreply;
    [rewrite (update_text _ _ _ _ _ _ _ _ _ _ _ Hplan Hreply) in Hupd;
     destruct (version_history self && negb (simple_mode self));
     [destruct (write_error env (write_attempts w)) as [msg | ] | ]
    | rewrite (update_raises _ _ _ _ _ _ _ _ _ _ _ Hplan Hreply) in Hupd];
    injection Hupd as <- <- <-; cbn -[len Z.add slice_from];
    try reflexivity; try (intros H; discriminate H);
    intros _; repeat split; reflexivity.
Qed.

End Facts.
End MinutesMore.

(* ================================================================== *)
(** ** The transcript text of a full generation *)

Module GeneratorFacts.
Import Py PyFacts Config Backends Chunking Minutes.
Import ChunkingFacts SplitFacts.

Lemma counted_app (a b : list TranscriptEntry) :
  counted (a ++ b) = counted a + counted b.
Proof.
  induction a as [| x a IH]; cbn [app counted]; [lia | rewrite IH; lia].
Qed.

Lemma counted_rev (l : list TranscriptEntry) : counted (rev l) = counted l.
Proof.
  induction l as [| x l IH]; cbn [rev counted]; [reflexivity | ].
  rewrite counted_app, IH. cbn [counted]. lia.
Qed.

(** The loop keeps the first [j] entries of the reversed transcript: as
    many as fit, counting one separator after each. *)
Lemma truncate_loop_spec (l : list TranscriptEntry) :
  forall acc,
    exists j,
      (j <= length l)%nat
      /\ truncate_loop l acc = map entry_str (firstn j l)
      /\ (acc <= MAX_TRANSCRIPT_CHARS ->
          acc + counted (firstn j l) <= MAX_TRANSCRIPT_CHARS)
      /\ ((j < length l)%nat ->
          acc + counted (firstn (S j) l) > MAX_TRANSCRIPT_CHARS).
Proof.
  induction l as [| e l IH]; intros acc.
  - exists 0%nat. cbn. repeat split; try lia.
  - cbn [truncate_loop].
    destruct (Z.gtb_spec (acc + len (entry_str e) + 1) MAX_TRANSCRIPT_CHARS)
      as [Hgt | Hle].
    + exists 0%nat. cbn [firstn map counted length].
      split; [lia | ]. split; [reflexivity | ].
      split; [intros; lia | intros _; lia].
    + destruct (IH (acc + len (entry_str e) + 1))
        as (j & Hj & Heq & Hfit & Hmax).
      exists (S j). cbn [firstn map counted length].
      split; [lia | ]. split; [rewrite Heq; reflexivity | ].
      split.
      * intros _. specialize (Hfit Hle). lia.
      * intros Hlt. assert (Hlt' : (j < length l)%nat) by lia.
        specialize (Hmax Hlt'). cbn [firstn counted] in Hmax. lia.
Qed.

Lemma len_rendered_any (es : list TranscriptEntry) :
  len (join newline (map entry_str es))
  = match es with [] => 0 | _ :: _ => counted es - 1 end.
Proof.
  destruct es as [| e es]; [reflexivity | ].
  apply len_rendered. discriminate.
Qed.

(** X13.  The transcript text of a full generation.  The text sent is the
    rendering of the most recent entries, oldest first: all of them when
    the whole rendering has at most [MAX_TRANSCRIPT_CHARS] characters, and
    otherwise the longest run of latest entries that fits when a newline is
    counted after each; either way it has at most [MAX_TRANSCRIPT_CHARS]
    characters. *)
Theorem full_text_is_recent_suffix (transcripts : list TranscriptEntry) :
  len (full_transcript_text transcripts) <= MAX_TRANSCRIPT_CHARS
  /\ exists k,
       (k <= length transcripts)%nat
       /\ full_transcript_text transcripts
          = join newline (map entry_str (skipn k transcripts))
       /\ (len (join newline (map entry_str transcripts))
           <= MAX_TRANSCRIPT_CHARS -> k = 0%nat)
       /\ (k <> 0%nat ->
           counted (skipn k transcripts) <= MAX_TRANSCRIPT_CHARS
           /\ counted (skipn (k - 1) transcripts) > MAX_TRANSCRIPT_CHARS).
Proof.
  unfold full_transcript_text.
  destruct (Z.gtb_spec (len (join newline (map entry_str transcripts)))
              MAX_TRANSCRIPT_CHARS) as [Hgt | Hle].
  - destruct (truncate_loop_spec (rev transcripts) 0)
      as (j & Hj & Heq & Hfit & Hmax).
    rewrite length_rev in Hj, Hmax.
    assert (Hkeep : rev (truncate_loop (rev transcripts) 0)
                    = map entry_str (skipn (length transcripts - j)
                                       transcripts)).
    { rewrite Heq, <- map_rev, firstn_rev, rev_involutive. reflexivity. }
    assert (Hcount : counted (skipn (length transcripts - j) transcripts)
                     <= MAX_TRANSCRIPT_CHARS).
    { rewrite <- counted_rev, <- firstn_rev.
      unfold MAX_TRANSCRIPT_CHARS in *. specialize (Hfit ltac:(lia)). lia. }
    assert (Hless : (j < length transcripts)%nat).
    { destruct (Nat.eq_dec j (length transcripts)) as [E | E]; [ | lia].
      exfalso. rewrite E, Nat.sub_diag in Hcount. cbn [skipn] in Hcount.
      rewrite len_rendered_any in Hgt.
      destruct transcripts; [cbn in Hgt; unfold MAX_TRANSCRIPT_CHARS in Hgt
                            | ]; lia. }
    rewrite Hkeep. split.
    + rewrite len_rendered_any.
      destruct (skipn (length transcripts - j) transcripts);
        [unfold MAX_TRANSCRIPT_CHARS | ]; lia.
    + exists (length transcripts - j)%nat.
      split; [lia | ]. split; [reflexivity | ].
      split; [intros H; lia | ].
      intros _. split; [exact Hcount | ].
      specialize (Hmax Hless).
      replace (length transcripts - j - 1)%nat
        with (length transcripts - S j)%nat by lia.
      rewrite <- counted_rev, <- firstn_rev. lia.
  - split; [exact Hle | ]. exists 0%nat.
    split; [lia | ]. split; [reflexivity | ].
    split; [reflexivity | ]. intros H. congruence.
Qed.

End GeneratorFacts.

(* ================================================================== *)
(** ** The transcriber and the transcript log *)

Module SessionFacts.
Import Py PyFacts Config Transcriber Session Scenarios.

Lemma lstrip_head (s : str) (c : char) (t : str) :
  lstrip s = c :: t -> isspace c = false.
Proof.
  induction s as [| x s IH]; cbn [lstrip]; [discriminate | ].
  destruct (isspace x) eqn:Hx; [exact IH | ].
  intros H. injection H as <- _. exact Hx.
Qed.

Lemma lstrip_snoc (l : str) (c : char) :
  isspace c = false -> lstrip (l ++ [c]) = lstrip l ++ [c].
Proof.
  intros Hc. induction l as [| x l IH]; cbn [app lstrip].
  - rewrite Hc. reflexivity.
  - destruct (isspace x); [exact IH | reflexivity].
Qed.

Lemma strip_trimmed (s : str) : strip s <> [] -> trimmed (strip s).
Proof.
  unfold strip, rstrip. intros Hne.
  destruct (lstrip s) as [| c0 t0] eqn:Hl; [exfalso; apply Hne; reflexivity | ].
  pose proof (lstrip_head _ _ _ Hl) as Hc0.
  cbn [rev]. rewrite lstrip_snoc by exact Hc0.
  rewrite rev_app_distr. cbn [rev app]. split.
  - exists c0, (rev (lstrip (rev t0))). split; [reflexivity | exact Hc0].
  - destruct (lstrip (rev t0)) as [| c1 t1] eqn:H1.
    + exists [], c0. split; [reflexivity | exact Hc0].
    + exists (c0 :: rev t1), c1. cbn [rev].
      split; [reflexivity | exact (lstrip_head _ _ _ H1)].
Qed.

Lemma join_trimmed (sep : str) (parts : list str) :
  Forall trimmed parts -> parts <> [] -> trimmed (join sep parts).
Proof.
  induction 1 as [| p rest Hp Hrest IH]; [congruence | intros _].
  destruct rest as [| q rest]; [exact Hp | ].
  change (join sep (p :: q :: rest)) with (p ++ sep ++ join sep (q :: rest)).
  destruct Hp as [(c & t & -> & Hc) _].
  destruct (IH ltac:(discriminate)) as [_ (t' & c' & Hj & Hc')].
  rewrite Hj. split.
  - exists c, (t ++ sep ++ t' ++ [c']). split; [reflexivity | exact Hc].
  - exists ((c :: t) ++ sep ++ t'), c'.
    split; [rewrite <- !app_assoc; reflexivity | exact Hc'].
Qed.

Lemma stripped_texts_trimmed (segments : list str) :
  Forall trimmed (stripped_texts segments).
Proof.
  induction segments as [| s rest IH]; cbn [stripped_texts]; [constructor | ].
  destruct (strip s) as [| c t] eqn:Hs; [exact IH | ].
  constructor; [ | exact IH].
  rewrite <- Hs. apply strip_trimmed. rewrite Hs. discriminate.
Qed.

Lemma stripped_texts_nil (segments : list str) :
  stripped_texts segments = [] <-> Forall (fun s => strip s = []) segments.
Proof.
  induction segments as [| s rest IH]; cbn [stripped_texts].
  - split; [constructor | reflexivity].
  - destruct (strip s) as [| c t] eqn:Hs.
    + rewrite IH. split.
      * intros H. constructor; assumption.
      * intros H. inversion H; assumption.
    + split; [discriminate | ].
      intros H. inversion H; congruence.
Qed.

(** X14.  What the transcriber returns.  The text is empty exactly when
    every segment is blank; otherwise it is not empty and neither starts
    nor ends with a white space; and the turn of the consumer loop for a
    window whose segments are all blank appends no entry and leaves the
    next index as it is. *)
Theorem transcribe_spec (segments : list str) :
  (transcribe segments = [] <-> Forall (fun s => strip s = []) segments)
  /\ (transcribe segments <> [] -> trimmed (transcribe segments))
  /\ (Forall (fun s => strip s = []) segments ->
      forall log now, on_window log (transcribe segments) now = log).
Proof.
  assert (Hnil : transcribe segments = []
                 <-> Forall (fun s => strip s = []) segments).
  { rewrite <- stripped_texts_nil. unfold transcribe. split.
    - intros H. destruct (stripped_texts segments) as [| p ps] eqn:Hp;
        [reflexivity | ].
      exfalso.
      assert (Ht : trimmed (join [32%N] (p :: ps))).
      { apply join_trimmed; [ | discriminate].
        rewrite <- Hp. apply stripped_texts_trimmed. }
      destruct Ht as [(c & t & Hc & _) _]. congruence.
    - intros ->. reflexivity. }
  split; [exact Hnil | ]. split.
  - intros Hne. unfold transcribe in *.
    apply join_trimmed; [apply stripped_texts_trimmed | ].
    intros H. apply Hne. rewrite H. reflexivity.
  - intros Hblank log now. apply Hnil in Hblank. rewrite Hblank. reflexivity.
Qed.

Lemma transcribe_loop_spec (heard : list (str * datetime)) :
  forall log,
    transcript_index log = len (transcripts log) ->
    map index (transcripts log)
    = map Z.of_nat (seq 0 (length (transcripts log))) ->
    let log' := transcribe_loop log heard in
    transcript_index log' = len (transcripts log')
    /\ map index (transcripts log')
       = map Z.of_nat (seq 0 (length (transcripts log')))
    /\ map (fun e => (text e, timestamp e)) (transcripts log')
       = map (fun e => (text e, timestamp e)) (transcripts log)
           ++ spoken heard.
Proof.
  induction heard as [| [txt now] rest IH]; intros log Hidx Hseq;
    cbn [transcribe_loop].
  - cbv zeta. unfold spoken. cbn [filter]. rewrite app_nil_r.
    repeat split; assumption.
  - destruct txt as [| c t].
    + cbn [on_window]. unfold spoken. cbn [filter fst].
      apply IH; assumption.
    + destruct (IH (on_window log (c :: t) now)) as (H1 & H2 & H3).
      * cbn [on_window transcript_index transcripts].
        rewrite len_app, Hidx. reflexivity.
      * cbn [on_window transcript_index transcripts].
        rewrite map_app, length_app, Hseq. cbn [map length index].
        rewrite Nat.add_1_r, seq_S, map_app. cbn [map Nat.add].
        rewrite Hidx. reflexivity.
      * cbv zeta. split; [exact H1 | ]. split; [exact H2 | ].
        rewrite H3. cbn [on_window transcripts].
        rewrite map_app, <- app_assoc. reflexivity.
Qed.

(** X15.  The indices of the transcript.  After any run of the consumer
    loop from the empty log, the entries carry the indices 0, 1, 2, ... in
    order, with no gap and no repeat; the next index is the number of
    entries; and the entries are exactly the non-empty texts returned by
    the transcriber, in the order and with the times at which they were
    heard. *)
Theorem transcript_indices_are_gap_free (heard : list (str * datetime)) :
  let log := transcribe_loop empty_log heard in
  map index (transcripts log)
  = map Z.of_nat (seq 0 (length (transcripts log)))
  /\ transcript_index log = len (transcripts log)
  /\ map (fun e => (text e, timestamp e)) (transcripts log) = spoken heard.
Proof.
  destruct (transcribe_loop_spec heard empty_log eq_refl eq_refl)
    as (H1 & H2 & H3).
  cbv zeta. split; [exact H2 | ]. split; [exact H1 | exact H3].
Qed.

End SessionFacts.

(* ================================================================== *)
(** ** The list of input devices *)

Module DeviceFacts.
Import Py PyFacts AudioDevices.

Section Facts.
Variable rate : Type.

Lemma list_from_spec (devices : list (Device rate)) :
  forall (i : Z) (r : InputDevice rate),
    In r (list_from rate i devices)
    <-> exists k d,
          nth_error devices k = Some d
          /\ max_input_channels rate d > 0
          /\ r = as_input rate (i + Z.of_nat k) d.
Proof.
  induction devices as [| d rest IH]; intros i r; cbn [list_from].
  - split; [intros [] | intros (k & d & H & _)].
    destruct k; discriminate H.
  - assert (Hrest : In r (list_from rate (i + 1) rest)
                    <-> exists k d',
                          nth_error (d :: rest) (S k) = Some d'
                          /\ max_input_channels rate d' > 0
                          /\ r = as_input rate (i + Z.of_nat (S k)) d').
    { rewrite IH. split; intros (k & d' & H1 & H2 & H3); exists k, d';
        (split; [exact H1 | split; [exact H2 | ]]);
        rewrite H3; f_equal; lia. }
    destruct (Z.gtb_spec (max_input_channels rate d) 0) as [Hpos | Hnot].
    + cbn [In]. rewrite Hrest. split.
      * intros [<- | (k & d' & H)].
        -- exists 0%nat, d. cbn [nth_error].
           split; [reflexivity | split; [lia | f_equal; lia]].
        -- exists (S k), d'. exact H.
      * intros ([| k] & d' & H1 & H2 & H3).
        -- left. cbn [nth_error] in H1. injection H1 as <-.
           rewrite H3. f_equal. lia.
        -- right. exists k, d'. repeat split; assumption.
    + rewrite Hrest. split.
      * intros (k & d' & H). exists (S k), d'. exact H.
      * intros ([| k] & d' & H1 & H2 & H3).
        -- cbn [nth_error] in H1. injection H1 as <-. lia.
        -- exists k, d'. repeat split; assumption.
Qed.

Lemma list_from_sorted (devices : list (Device rate)) :
  forall i,
    Forall (fun r => i <= id rate r) (list_from rate i devices)
    /\ StronglySorted (fun a b => id rate a < id rate b)
         (list_from rate i devices).
Proof.
  induction devices as [| d rest IH]; intros i; cbn [list_from].
  - split; constructor.
  - destruct (IH (i + 1)) as [Hlow Hsorted].
    assert (Hlow' : Forall (fun r => i <= id rate r)
                      (list_from rate (i + 1) rest))
      by (eapply Forall_impl; [ | exact Hlow]; cbn; intros; lia).
    destruct (max_input_channels rate d >? 0).
    + split.
      * constructor; [cbn; lia | exact Hlow'].
      * constructor; [exact Hsorted | ].
        eapply Forall_impl; [ | exact Hlow]. cbn. intros; lia.
    + split; assumption.
Qed.

(** X16.  The input devices.  [list_devices] returns exactly the devices
    that have at least one input channel, each with its position in the
    host's list as [id] and with its name, channel count and sample rate
    copied; the entries come in increasing order of [id]. *)
Theorem list_devices_spec (devices : list (Device rate)) :
  (forall r,
      In r (list_devices rate devices)
      <-> exists k d,
            nth_error devices k = Some d
            /\ max_input_channels rate d > 0
            /\ r = as_input rate (Z.of_nat k) d)
  /\ StronglySorted (fun a b => id rate a < id rate b)
       (list_devices rate devices).
Proof.
  split.
  - intros r. unfold list_devices. rewrite list_from_spec.
    split; intros (k & d & H); exists k, d; exact H.
  - apply list_from_sorted.
Qed.

End Facts.
End DeviceFacts.

(* ================================================================== *)
(** ** The choice of a backend *)

Module FactoryFacts.
Import Py PyFacts Factory.

Lemma str_eqb_eq (a b : str) : str_eqb a b = true <-> a = b.
Proof.
  revert b. induction a as [| x a IH]; intros [| y b]; cbn [str_eqb];
    try (split; [discriminate | discriminate]); [split; reflexivity | ].
  unfold char_eqb. rewrite andb_true_iff, N.eqb_eq, IH.
  split; [intros [-> ->]; reflexivity | intros H; injection H; auto].
Qed.

Lemma str_eqb_neq (a b : str) : a <> b -> str_eqb a b = false.
Proof.
  intros H. destruct (str_eqb a b) eqn:E; [ | reflexivity].
  apply str_eqb_eq in E. contradiction.
Qed.

(** A named backend: the call returns it when its check passes and its
    constructor returns, raises the [RuntimeError] of that name when the
    check fails, and lets through what the check or the constructor
    raises. *)
Lemma get_named_backend (c : BackendClass) (host : Host) :
  get_backend (config_name c) host
  = match check_available c host with
    | inr e => inr e
    | inl false => inr (missing c)
    | inl true => construct c host
    end.
Proof.
  destruct c; unfold get_backend; cbn -[check_available construct].
  - cbn [check_available]. destruct (api_key host); reflexivity.
  - destruct (check_available ClaudeAgentBackend host) as [[|] | e];
      reflexivity.
  - destruct (check_available ClaudeCLIBackend host) as [[|] | e];
      reflexivity.
Qed.

(** The automatic choice. *)
Lemma get_other_backend (backend : str) (host : Host) :
  backend <> lit "api" -> backend <> lit "claude-agent" ->
  backend <> lit "claude-cli" ->
  get_backend backend host
  = match check_available ClaudeAgentBackend host with
    | inr e => inr e
    | inl true => construct ClaudeAgentBackend host
    | inl false =>
        match check_available ClaudeCLIBackend host with
        | inr e => inr e
        | inl true => construct ClaudeCLIBackend host
        | inl false =>
            if api_key host then construct AnthropicAPIBackend host
            else inr NoBackendAvailable
        end
    end.
Proof.
  intros H1 H2 H3. unfold get_backend.
  rewrite (str_eqb_neq _ _ H1), (str_eqb_neq _ _ H2), (str_eqb_neq _ _ H3).
  reflexivity.
Qed.

Lemma construct_returns (c b : BackendClass) (host : Host) :
  construct c host = inl b -> b = c.
Proof.
  destruct c; cbn; [destruct (new_client host) | destruct (new_options host)
                   | ]; intros H; try discriminate H; injection H as <-;
    reflexivity.
Qed.

Lemma construct_error (c : BackendClass) (host : Host) :
  construct c host <> inr NoBackendAvailable.
Proof.
  destruct c; cbn; [destruct (new_client host) | destruct (new_options host)
                   | ]; discriminate.
Qed.

Lemma check_error (c : BackendClass) (host : Host) :
  check_available c host <> inr NoBackendAvailable.
Proof.
  destruct c; cbn;
    [ | destruct (sdk_import host) | destruct (claude_version host)];
    discriminate.
Qed.

Ltac settle :=
  repeat match goal with
         | |- _ /\ _ => split
         | |- _ <-> _ => split
         | |- forall _, _ => intro
         end;
  try reflexivity; try congruence;
  try match goal with
      | H : construct _ _ = inl _ |- _ =>
          pose proof (construct_returns _ _ _ H); discriminate
      | H : construct _ _ = inr NoBackendAvailable |- _ =>
          exfalso; exact (construct_error _ _ H)
      | H : inr _ = inr NoBackendAvailable |- _ =>
          injection H as ->; exfalso; eapply check_error; eassumption
      | H : forall c, check_available c _ = inl false |- _ =>
          first [ specialize (H ClaudeAgentBackend); congruence
                | specialize (H ClaudeCLIBackend); congruence
                | specialize (H AnthropicAPIBackend); cbn in H; congruence ]
      | c : BackendClass |- check_available ?c _ = inl false =>
          destruct c;
          first [ assumption
                | cbn;
                  match goal with
                  | Hk : api_key _ = _ |- _ => rewrite Hk; reflexivity
                  end ]
      end.


End FactoryFacts.


(* ================================================================== *)
(** ** Instances *)

Module MoreInstances.
Import Py PyFacts Config Backends Chunking Minutes MapReduce Scenarios.

Lemma generate_on_small_transcripts_witness :
  let text := join newline (map entry_str two_entries) in
  let merge := MERGE_POINTS_PROMPT (lit "# minutes") (labelled 1 1 nashi) in
  MapReduce.generate no_digits replies_nashi 1 two_entries (lit "# minutes") []
  = Some (Done nashi, [EXTRACT_POINTS_PROMPT text; merge]).
Proof.
  exact (proj2 (MapReduceFacts.generate_on_small_transcripts no_digits
                  replies_nashi 1 (lit "# minutes") [])
           two_entries nashi
           ltac:(discriminate)
           ltac:(vm_compute; discriminate)
           eq_refl).
Defined.

Lemma update_twice_is_noop_witness :
  exists self' w',
    update plain_render working_env [first_entry] false noon
      (fresh_session, empty_world)
    = (Ok (mkResult true (lit "doc") 1 1 1 None), (self', w'))
    /\ update plain_render working_env [first_entry] false noon (self', w')
       = (Ok (mkResult true (current_minutes self') 0 1
                (update_count self') None), (self', w')).
Proof.
  eexists. eexists. split; [reflexivity | ].
  apply (MinutesMore.update_twice_is_noop plain_render working_env
           fresh_session _ empty_world _ [first_entry] false noon noon
           (mkResult true (lit "doc") 1 1 1 None)).
  - vm_compute. discriminate.
  - reflexivity.
  - reflexivity.
Defined.

Lemma incremental_update_sends_new_entries_witness :
  exists self' w' r,
    update plain_render working_env two_entries false noon
      (session_after_one, empty_world)
    = (Ok r, (self', w'))
    /\ calls w'
       = [INCREMENTAL_UPDATE_PROMPT (lit "doc")
            (join newline (map entry_str (slice_from two_entries 1)))]
    /\ new_entries_count r = 1
    /\ last_update_index self' = 2.
Proof.
  eexists. eexists. eexists. split; [reflexivity | ].
  destruct (MinutesMore.incremental_update_sends_new_entries plain_render
              working_env session_after_one _ empty_world _ two_entries noon
              _ ltac:(discriminate) ltac:(vm_compute; discriminate) eq_refl)
    as (Hcalls & Hok & _).
  split; [exact Hcalls | ].
  destruct (Hok eq_refl) as (_ & _ & Hn & Hi & _).
  split; [exact Hn | exact Hi].
Defined.

Lemma transcribe_spec_witness :
  Transcriber.trimmed
    (Transcriber.transcribe [lit " hello "; lit "  "; lit "world"])
  /\ Session.on_window Session.empty_log
       (Transcriber.transcribe [lit "  "; []]) noon
     = Session.empty_log.
Proof.
  split.
  - apply (proj1 (proj2 (SessionFacts.transcribe_spec
                           [lit " hello "; lit "  "; lit "world"]))).
    vm_compute. discriminate.
  - apply (proj2 (proj2 (SessionFacts.transcribe_spec [lit "  "; []]))).
    repeat constructor.
Defined.


End MoreInstances.


(* ================================================================== *)
(** ** The updater under exceptions that are not [Exception]s *)

Module InterruptFacts.
Import Py PyFacts Config Backends Minutes Scenarios.

Ltac run :=
  unfold Interrupts.update, Interrupts.try_except, Interrupts.bind,
    Interrupts.get_self, Interrupts.set_update_count, Interrupts.ret,
    Interrupts.generate_full, Interrupts.generate_incremental,
    Interrupts.backend_generate, Interrupts.commit,
    Interrupts.set_current_minutes, Interrupts.set_last_update_index,
    Interrupts._save_version, Interrupts.of_exceptions,
    update, try_except, bind, get_self, set_update_count, ret,
    generate_full, generate_incremental, backend_generate, generate,
    commit, set_current_minutes, set_last_update_index, _save_version,
    committed, asked, counting, get_new_transcripts in *;
  cbn -[len full_transcript_text join Z.add Z.sub Z.eqb slice_from] in *.

Section Facts.
Variable render : Template -> Context -> Py.str -> Py.str.

(** With the failures the updater of [Minutes] has, which are
    [Exception]s, the two updaters do the same. *)
Lemma update_of_exceptions (env : Env) (self : MinutesUpdater) (w : World)
  (transcripts : list TranscriptEntry) (full : bool) (now : datetime) :
  Interrupts.update render (Interrupts.of_exceptions env) transcripts full
    now (self, w)
  = match update render env transcripts full now (self, w) with
    | (Ok r, s) => (Interrupts.Ok r, s)
    | (Raise m, s) => (Interrupts.Raise (Interrupts.Exception m), s)
    end.
Proof.
  destruct self as [tpl st vh sm lui cnt cur].
  destruct transcripts as [| e rest]; [reflexivity | ].
  run.
  destruct (full || (cnt + 1 =? 1)).
  - run. destruct (backend env (length (calls w)) _); run; [ | reflexivity].
    destruct (vh && negb sm); run; [ | reflexivity].
    destruct (write_error env (write_attempts w)); reflexivity.
  - destruct (slice_from (e :: rest) lui) as [| e' new]; [reflexivity | ].
    run. destruct (backend env (length (calls w)) _); run; [ | reflexivity].
    destruct (vh && negb sm); run; [ | reflexivity].
    destruct (write_error env (write_attempts w)); reflexivity.
Qed.

Variable env : Interrupts.Env.

Ltac returned :=
  eexists; eexists; eexists; (split; [reflexivity | ]);
  (split; [first [left; reflexivity | right; eexists; reflexivity] | ]);
  cbn -[len Z.add Z.sub];
  (split; [ | intros _ _; eexists; reflexivity]);
  repeat split;
    try (left; reflexivity); try (right; reflexivity);
    try (left; lia); try (right; lia);
    try discriminate; try lia; try reflexivity.


End Facts.

(** A backend interrupted from the keyboard: the first update of a new
    session raises, and the session is left with [update_count] 1 and no
    document. *)
Lemma interrupted_update :
  Interrupts.update plain_render Interrupts.interrupted_env [first_entry]
    false noon (fresh_session, empty_world)
  = (Interrupts.Raise (Interrupts.BaseException (lit "KeyboardInterrupt")),
     (counting fresh_session 1, asked empty_world first_prompt)).
Proof. reflexivity. Qed.

End InterruptFacts.
